(** * Admission control: rate limiters of [performanceOptimizer.ts]

    A shallow embedding of the rate-limiting classes of
    [src/shared/optimization/performanceOptimizer.ts]
    ([RateLimiter], [TokenBucket], [DistributedThrottler],
    [AdaptiveRateLimiter], [SlidingWindowRateLimiter]) over a model of the
    shared Redis store, followed by the properties of the specification.

    Conventions of the embedding.
    - JavaScript and Lua numbers are exact: integers (millisecond
      timestamps, weights, counts, ceilings) are [Z], quantities that are
      divided (token levels, rates, ratios) are [Q].  Rounding of doubles
      is not modelled.
    - [Date.now()] is an explicit argument [now] of every operation.
    - A Redis command either rejects (the connection is down, the command
      timed out) or is carried out; which of the two happens is read from a
      fault script carried by the world.  A reply carries the numbers of
      the command or script unchanged, and keys live until deleted: the
      time to live set by [EXPIRE] is recorded, not enforced.
    - Keys are the very strings the code builds. *)

From Stdlib Require Import ZArith QArith Qround Qminmax Lia Lqa Sorted.
From stdpp Require Import gmap strings pretty list.

Open Scope Z_scope.

(** ** Numbers *)

Definition Qltb (a b : Q) : bool := negb (Qle_bool b a).
Definition Qleb (a b : Q) : bool := Qle_bool a b.

(** [Math.floor] and [Math.ceil] of a quotient of two integers.  For a
    zero divisor JavaScript yields an infinity or NaN where [Q] yields 0:
    the properties below that depend on a quotient assume its divisor is
    not zero. *)
Definition floor_div (a b : Z) : Z := Qfloor (inject_Z a / inject_Z b).
Definition ceil_div (a b : Z) : Z := Qceiling (inject_Z a / inject_Z b).

(** ** The shared store *)

(** A sorted-set member of the sliding log is the string
    [`${now}:${hex}`] with [hex] four random bytes; it is kept as the pair
    it is printed from. *)
Definition Member : Type := Z * N.

Record Redis := mkRedis {
  strings : gmap string Z;               (* integer counters: INCRBY, DECRBY *)
  hashes : gmap string (gmap string Q);  (* HMGET, HMSET *)
  zsets : gmap string (gmap Member Z);   (* member |-> score *)
  ttls : gmap string Q                   (* EXPIRE, in seconds *)
}.

Definition empty_redis : Redis := mkRedis ∅ ∅ ∅ ∅.

Definition key_exists (k : string) (r : Redis) : bool :=
  bool_decide (is_Some (strings r !! k))
  || bool_decide (is_Some (hashes r !! k))
  || bool_decide (is_Some (zsets r !! k)).

Definition counter (k : string) (r : Redis) : Z := default 0 (strings r !! k).

Definition INCRBY (k : string) (n : Z) (r : Redis) : Z * Redis :=
  let v := counter k r + n in
  (v, mkRedis (<[k := v]> (strings r)) (hashes r) (zsets r) (ttls r)).

Definition DECRBY (k : string) (n : Z) (r : Redis) : Z * Redis :=
  let v := counter k r - n in
  (v, mkRedis (<[k := v]> (strings r)) (hashes r) (zsets r) (ttls r)).

Definition EXPIRE (k : string) (secs : Q) (r : Redis) : Z * Redis :=
  if key_exists k r
  then (1, mkRedis (strings r) (hashes r) (zsets r) (<[k := secs]> (ttls r)))
  else (0, r).

Definition HMGET2 (k f1 f2 : string) (r : Redis) : option Q * option Q :=
  let h := default ∅ (hashes r !! k) in (h !! f1, h !! f2).

Definition HMSET2 (k f1 : string) (v1 : Q) (f2 : string) (v2 : Q) (r : Redis)
  : Redis :=
  let h := default ∅ (hashes r !! k) in
  mkRedis (strings r) (<[k := <[f2 := v2]> (<[f1 := v1]> h)]> (hashes r))
          (zsets r) (ttls r).

Definition zset (k : string) (r : Redis) : gmap Member Z :=
  default ∅ (zsets r !! k).

Definition put_zset (k : string) (z : gmap Member Z) (r : Redis) : Redis :=
  mkRedis (strings r) (hashes r) (<[k := z]> (zsets r)) (ttls r).

(** [ZREMRANGEBYSCORE k -inf hi]: members whose score is at most [hi] go. *)
Definition ZREMRANGEBYSCORE_neginf (k : string) (hi : Z) (r : Redis)
  : Z * Redis :=
  let z := zset k r in
  let kept := filter (λ ms : Member * Z, ¬ (ms.2 <= hi)) z in
  (Z.of_nat (size z) - Z.of_nat (size kept), put_zset k kept r).

(** [ZADD k score member]: a member already present only has its score
    replaced. *)
Definition ZADD (k : string) (score : Z) (m : Member) (r : Redis)
  : Z * Redis :=
  let z := zset k r in
  ((if z !! m is Some _ then 0 else 1), put_zset k (<[m := score]> z) r).

Definition ZCOUNT (k : string) (lo hi : Z) (r : Redis) : Z :=
  Z.of_nat (size (filter (λ ms : Member * Z, lo <= ms.2 ∧ ms.2 <= hi)
                         (zset k r))).

(** ** Effects: store commands that may reject, [try]/[catch], the log *)

Inductive exn :=
| StoreUnavailable   (* a store promise rejected *)
| TypeError.         (* a call of [undefined] *)

Inductive outcome (A : Type) :=
| Returned (a : A)
| Thrown (e : exn).
Arguments Returned {A} a.
Arguments Thrown {A} e.

Record World := mkWorld {
  redis : Redis;
  faults : list bool;   (* one flag per store round trip still to come *)
  log : list string     (* lines given to [logger.error] *)
}.

Definition IO (A : Type) : Type := World -> outcome A * World.

Definition ret {A} (a : A) : IO A := fun w => (Returned a, w).

Definition throw {A} (e : exn) : IO A := fun w => (Thrown e, w).

Definition bind {A B} (c : IO A) (k : A -> IO B) : IO B :=
  fun w => match c w with
           | (Returned a, w') => k a w'
           | (Thrown e, w') => (Thrown e, w')
           end.

Definition try_catch {A} (c : IO A) (h : exn -> IO A) : IO A :=
  fun w => match c w with
           | (Returned a, w') => (Returned a, w')
           | (Thrown e, w') => h e w'
           end.

Notation "x <- c ;; k" := (bind c (fun x => k))
  (at level 100, c at next level, right associativity).
Notation "c ;;; k" := (bind c (fun _ => k))
  (at level 100, right associativity).

Definition logger_error (line : string) : IO unit :=
  fun w => (Returned tt, mkWorld (redis w) (faults w) (line :: log w)).

(** One round trip to the store. *)
Definition command {A} (f : Redis -> A * Redis) : IO A :=
  fun w =>
    match faults w with
    | true :: fs => (Thrown StoreUnavailable, mkWorld (redis w) fs (log w))
    | false :: fs =>
        let (a, r) := f (redis w) in (Returned a, mkWorld r fs (log w))
    | [] => let (a, r) := f (redis w) in (Returned a, mkWorld r [] (log w))
    end.

(** A command whose promise nobody awaits: its reply and its rejection are
    both dropped. *)
Definition detached {A} (c : IO A) : IO unit :=
  fun w => (Returned tt, snd (c w)).

(** ** Requests and policies *)

Record Request := mkRequest {
  req_ip : option string;
  req_remoteAddress : option string;
  req_user_id : option string;
  req_method : string;
  req_path : string;
  req_content_length : Z
}.

(** [RateLimitConfig]; its [handler], which only shapes the 429 answer, is
    left out. *)
Record RateLimitConfig := mkRateLimitConfig {
  windowMs : Z;
  maxRequests : Z;
  keyPrefix : option string;
  skipSuccessfulRequests : option bool;
  skipFailedRequests : option bool;
  keyGenerator : option (Request -> string);
  skip : option (Request -> bool);
  requestWeightFn : option (Request -> Z)
}.

Definition truthy (b : option bool) : bool := default false b.

Definition or_else (a b : option string) : option string :=
  match a with
  | Some s => if bool_decide (s = "") then b else Some s
  | None => b
  end.

Record RateResult := mkRateResult {
  allowed : bool;
  remaining : Z;
  resetAt : Z;
  retryAfter : option Z
}.

Record RateHeaders := mkRateHeaders {
  X_RateLimit_Limit : Z;
  X_RateLimit_Remaining : Z;
  X_RateLimit_Reset : Z;
  Retry_After : option Z
}.

(** What the middleware did with a request: [next()] without counting,
    the 429 answer, or [next()] after counting, possibly with [res.end]
    wrapped; the wrapper is given the status code and the clock at the
    time the response ends. *)
Inductive Admission :=
| Bypassed
| Rejected (h : RateHeaders) (r : RateResult)
| Forwarded (h : RateHeaders) (on_end : option (Z -> Z -> IO unit)).

(** ** class RateLimiter *)
Module RateLimiter.

Definition defaultKeyGenerator (req : Request) : string :=
  let ip := default "unknown" (or_else (req_ip req) (req_remoteAddress req)) in
  let userId := default "anonymous" (or_else (req_user_id req) None) in
  ip +:+ ":" +:+ userId.

(** The constructor: the defaults, overridden by the fields supplied. *)
Definition new (config : RateLimitConfig) : RateLimitConfig :=
  {| windowMs := windowMs config;
     maxRequests := maxRequests config;
     keyPrefix := Some (default "rate-limit" (keyPrefix config));
     skipSuccessfulRequests :=
       Some (default false (skipSuccessfulRequests config));
     skipFailedRequests := Some (default false (skipFailedRequests config));
     keyGenerator := Some (default defaultKeyGenerator (keyGenerator config));
     skip := skip config;
     requestWeightFn :=
       Some (default (fun _ => 1) (requestWeightFn config)) |}.

(** [new RateLimiter(config)]: the constructor runs no check and has no
    [throw]. *)
Definition construct (config : RateLimitConfig) : IO RateLimitConfig :=
  ret (new config).

Definition prefix (config : RateLimitConfig) : string :=
  default "undefined" (keyPrefix config).

Definition keyOfWindow (config : RateLimitConfig) (key : string)
    (window : Z) : string :=
  let redisKey := prefix config +:+ ":" +:+ key in
  redisKey +:+ ":" +:+ pretty window.

Definition windowKey (config : RateLimitConfig) (key : string) (now : Z)
  : string :=
  keyOfWindow config key (floor_div now (windowMs config)).

Definition isAllowed (config : RateLimitConfig) (key : string) (weight : Z)
    (now : Z) : IO RateResult :=
  let window := floor_div now (windowMs config) in
  let windowKey := windowKey config key now in
  try_catch
    (count <- command (INCRBY windowKey weight) ;;
     (if bool_decide (count = weight)
      then (command (EXPIRE windowKey
                       (inject_Z (ceil_div (windowMs config) 1000))) ;;;
            ret tt)
      else ret tt) ;;;
     let allowed := bool_decide (count <= maxRequests config) in
     let remaining := Z.max 0 (maxRequests config - count) in
     let resetAt := (window + 1) * windowMs config in
     if negb allowed
     then ret (mkRateResult allowed remaining resetAt (Some (resetAt - now)))
     else ret (mkRateResult allowed remaining resetAt None))
    (fun error =>
       logger_error "Rate limiter error:" ;;;
       ret (mkRateResult true (maxRequests config)
                         (now + windowMs config) None)).

(** The wrapper put around [res.end]. *)
Definition on_end (config : RateLimitConfig) (key : string) (weight : Z)
    (statusCode now : Z) : IO unit :=
  let shouldRefund :=
    (bool_decide (statusCode < 400) && truthy (skipSuccessfulRequests config))
    || (bool_decide (statusCode >= 400) && truthy (skipFailedRequests config))
  in
  if shouldRefund
  then detached (command (DECRBY (windowKey config key now) weight))
  else ret tt.

Definition middleware (config : RateLimitConfig) (req : Request) (now : Z)
  : IO Admission :=
  if default false ((fun f => f req) <$> skip config)
  then ret Bypassed
  else
    match keyGenerator config, requestWeightFn config with
    | Some generator, Some weightFn =>
    let key := generator req in
    let weight := weightFn req in
    result <- isAllowed config key weight now ;;
    let headers :=
      mkRateHeaders (maxRequests config) (remaining result) (resetAt result)
                    None in
    if negb (allowed result)
    then
      ret (Rejected
             (mkRateHeaders (maxRequests config) (remaining result)
                (resetAt result)
                ((fun ra => ceil_div ra 1000) <$> retryAfter result))
             result)
    else
      if truthy (skipSuccessfulRequests config)
         || truthy (skipFailedRequests config)
      then ret (Forwarded headers (Some (on_end config key weight)))
      else ret (Forwarded headers None)
    | _, _ => throw TypeError
    end.

End RateLimiter.

(** ** class TokenBucket (process-local) *)
Module TokenBucket.

Record t := mk {
  tokens : Q;
  lastRefill : Z;
  capacity : Q;
  refillRate : Q
}.

Definition new (capacity refillRate : Q) (now : Z) : t :=
  mk capacity now capacity refillRate.

Definition refill (now : Z) (b : t) : t :=
  let timePassed := now - lastRefill b in
  let tokensToAdd := (inject_Z timePassed / 1000 * refillRate b)%Q in
  mk (Qmin (capacity b) (tokens b + tokensToAdd)) now
     (capacity b) (refillRate b).

Definition consume (n : Q) (now : Z) (b : t) : bool * t :=
  let b := refill now b in
  if Qleb n (tokens b)
  then (true, mk (tokens b - n) (lastRefill b) (capacity b) (refillRate b))
  else (false, b).

Definition getTokens (now : Z) (b : t) : Q * t :=
  let b := refill now b in (tokens b, b).

End TokenBucket.

(** ** class DistributedThrottler *)
Module DistributedThrottler.

Record ThrottleConfig := mkThrottleConfig {
  burstLimit : Q;
  sustainedLimit : Q;
  windowMs : Q;
  keyPrefix : option string
}.

Record ThrottleResult := mkThrottleResult {
  allowed : bool;
  tokensRemaining : Q;
  retryAfter : option Q
}.

Definition new (config : ThrottleConfig) : ThrottleConfig :=
  {| burstLimit := burstLimit config;
     sustainedLimit := sustainedLimit config;
     windowMs := windowMs config;
     keyPrefix := Some (default "throttle" (keyPrefix config)) |}.

(** [new DistributedThrottler(config)]. *)
Definition construct (config : ThrottleConfig) : IO ThrottleConfig :=
  ret (new config).

(** The Lua script, served by the store in one piece. *)
Definition luaScript (key : string)
    (burst_limit sustained_limit window_ms cost now : Q) (r : Redis)
  : (Z * Q) * Redis :=
  let data := HMGET2 key "tokens" "last_refill" r in
  let tokens := default burst_limit data.1 in
  let last_refill := default now data.2 in
  let time_passed := (now - last_refill)%Q in
  let refill_rate := (sustained_limit / (window_ms / 1000))%Q in
  let new_tokens :=
    Qmin burst_limit (tokens + time_passed / 1000 * refill_rate) in
  if Qleb cost new_tokens
  then
    let new_tokens := (new_tokens - cost)%Q in
    let r := HMSET2 key "tokens" new_tokens "last_refill" now r in
    let r := snd (EXPIRE key (window_ms / 1000) r) in
    ((1, new_tokens), r)
  else
    let r := HMSET2 key "tokens" new_tokens "last_refill" now r in
    let r := snd (EXPIRE key (window_ms / 1000) r) in
    ((0, new_tokens), r).

Definition redisKey (config : ThrottleConfig) (key : string) : string :=
  default "undefined" (keyPrefix config) +:+ ":" +:+ key.

Definition isAllowed (config : ThrottleConfig) (key : string) (cost : Q)
    (now : Z) : IO ThrottleResult :=
  try_catch
    (result <- command (luaScript (redisKey config key)
                          (burstLimit config) (sustainedLimit config)
                          (windowMs config) cost (inject_Z now)) ;;
     let '(allowed, tokensRemaining) := result in
     if bool_decide (allowed = 0)
     then
       let refillRate := (sustainedLimit config / (windowMs config / 1000))%Q in
       let retryAfter := ((cost - tokensRemaining) / refillRate * 1000)%Q in
       ret (mkThrottleResult false tokensRemaining (Some retryAfter))
     else ret (mkThrottleResult true tokensRemaining None))
    (fun error =>
       logger_error "Throttler error:" ;;;
       ret (mkThrottleResult true (burstLimit config) None)).

Definition generateKey (req : Request) : string :=
  let ip := default "unknown" (or_else (req_ip req) (req_remoteAddress req)) in
  match or_else (req_user_id req) None with
  | Some userId => "user:" +:+ userId
  | None => "ip:" +:+ ip
  end.

Fixpoint includes (needle hay : string) : bool :=
  String.prefix needle hay
  || match hay with
     | EmptyString => false
     | String _ rest => includes needle rest
     end.

Definition calculateCost (req : Request) : Q :=
  let method := req_method req in
  let path := req_path req in
  if bool_decide (method = "GET") then 1
  else if bool_decide (method = "POST") && includes "/upload" path then 10
  else if bool_decide (method = "POST") then 5
  else if bool_decide (method = "PUT") || bool_decide (method = "PATCH")
       then 3
  else if bool_decide (method = "DELETE") then 2
  else 1.

End DistributedThrottler.

(** ** class AdaptiveRateLimiter *)

Record PerformanceMetric := mkPerformanceMetric {
  total : Z;
  errors : Z;
  totalResponseTime : Q;
  lastUpdate : Z
}.

Module AdaptiveRateLimiter.

Record t := mk {
  baseConfig : RateLimitConfig;
  performanceMetrics : gmap string PerformanceMetric
}.

Definition new (baseConfig : RateLimitConfig) : t := mk baseConfig ∅.

Definition getDynamicLimit (self : t) (key : string) : Z :=
  match performanceMetrics self !! key with
  | None => maxRequests (baseConfig self)
  | Some metrics =>
      let errorRate := (inject_Z (errors metrics) / inject_Z (total metrics))%Q in
      let avgResponseTime :=
        (totalResponseTime metrics / inject_Z (total metrics))%Q in
      let limit := maxRequests (baseConfig self) in
      let limit :=
        if Qltb (1 # 10) errorRate then Qfloor (inject_Z limit * (1 # 2))
        else if Qltb (5 # 100) errorRate
             then Qfloor (inject_Z limit * (75 # 100))
        else limit in
      let limit :=
        if Qltb errorRate (1 # 100) && Qltb avgResponseTime 100
        then Qfloor (inject_Z limit * (15 # 10))
        else limit in
      limit
  end.

Definition recordMetric (key : string) (responseTime : Q) (statusCode : Z)
    (now : Z) (self : t) : t :=
  let metrics :=
    default (mkPerformanceMetric 0 0 0 now) (performanceMetrics self !! key) in
  let metrics :=
    mkPerformanceMetric
      (total metrics + 1)
      (if bool_decide (statusCode >= 400)
       then errors metrics + 1 else errors metrics)
      (totalResponseTime metrics + responseTime)
      now in
  mk (baseConfig self) (<[key := metrics]> (performanceMetrics self)).

(** The body of the timer set up by [startMetricsCollection], run at
    time [now]. *)
Definition cleanOldMetrics (now : Z) (self : t) : t :=
  mk (baseConfig self)
     (filter (λ km : string * PerformanceMetric,
                ¬ (now - lastUpdate km.2 > 3600000))
             (performanceMetrics self)).

Definition middleware (self : t) (req : Request) (now : Z) : IO Admission :=
  match keyGenerator (baseConfig self) with
  | None => throw TypeError
  | Some generator =>
      let key := generator req in
      let dynamicLimit := getDynamicLimit self key in
      let base := baseConfig self in
      let dynamicConfig :=
        {| windowMs := windowMs base;
           maxRequests := dynamicLimit;
           keyPrefix := keyPrefix base;
           skipSuccessfulRequests := skipSuccessfulRequests base;
           skipFailedRequests := skipFailedRequests base;
           keyGenerator := Some generator;
           skip := skip base;
           requestWeightFn := requestWeightFn base |} in
      RateLimiter.middleware (RateLimiter.new dynamicConfig) req now
  end.

End AdaptiveRateLimiter.

(** ** class SlidingWindowRateLimiter *)
Module SlidingWindowRateLimiter.

(** [pipeline.exec()]: the four queued commands, in one round trip. *)
Definition pipeline (redisKey : string) (windowStart now : Z)
    (member : Member) (ttl : Z) (r : Redis) : (Z * Z * Z * Z) * Redis :=
  let (r0, r) := ZREMRANGEBYSCORE_neginf redisKey windowStart r in
  let (r1, r) := ZADD redisKey now member r in
  let r2 := ZCOUNT redisKey windowStart now r in
  let (r3, r) := EXPIRE redisKey (inject_Z ttl) r in
  ((r0, r1, r2, r3), r).

(** [nonce] is the value of [crypto.randomBytes(4)]. *)
Definition isAllowed (config : RateLimitConfig) (key : string) (now : Z)
    (nonce : N) : IO bool :=
  let redisKey := "sliding:" +:+ key in
  let windowStart := now - windowMs config in
  try_catch
    (results <- command (pipeline redisKey windowStart now (now, nonce)
                           (ceil_div (windowMs config) 1000)) ;;
     let '(_, _, r2, _) := results in
     let count := if bool_decide (r2 = 0) then 0 else r2 in
     ret (bool_decide (count <= maxRequests config)))
    (fun error =>
       logger_error "Sliding window rate limiter error:" ;;;
       ret true).

End SlidingWindowRateLimiter.

(** ** Runs *)

(** The store answers every command still to come. *)
Definition healthy (w : World) : Prop := Forall (λ b, b = false) (faults w).

(** Requests served one after the other; a request that throws does not
    stop the next one. *)
Fixpoint sequence {A} (cs : list (IO A)) (w : World)
  : list (outcome A) * World :=
  match cs with
  | [] => ([], w)
  | c :: cs =>
      let (o, w) := c w in
      let (os, w) := sequence cs w in
      (o :: os, w)
  end.

Definition fresh_world : World := mkWorld empty_redis [] [].

(** Sequential fixed-window checks of one key, each with its weight and
    its clock reading. *)
Definition fixed_window_checks (config : RateLimitConfig) (key : string)
    (calls : list (Z * Z)) : World -> list (outcome RateResult) * World :=
  sequence (map (fun c => RateLimiter.isAllowed config key c.1 c.2) calls).

Definition total_weight (weights : list Z) : Z := foldr Z.add 0 weights.

(** What the specification promises for admitted calls: the answers to
    calls of the given weights, in a window that closes at [reset] and
    already counts [count]. *)
Fixpoint admitted_answers (ceiling reset count : Z) (weights : list Z)
  : list (outcome RateResult) :=
  match weights with
  | [] => []
  | weight :: weights =>
      Returned (mkRateResult true (Z.max 0 (ceiling - (count + weight)))
                             reset None)
      :: admitted_answers ceiling reset (count + weight) weights
  end.

(** ** Concrete policies *)

(** The policy of the specification's scenario. *)
Definition five_per_minute : RateLimitConfig :=
  RateLimiter.new (mkRateLimitConfig 60000 5 None None None None None None).

(** The [heavy] throttler: a burst of 5, 10 tokens per minute. *)
Definition heavy : DistributedThrottler.ThrottleConfig :=
  DistributedThrottler.new
    (DistributedThrottler.mkThrottleConfig 5 10 60000 None).

(** Sequential token-bucket checks of one key, each with its cost and its
    clock reading. *)
Definition throttle_checks (config : DistributedThrottler.ThrottleConfig)
    (key : string) (calls : list (Q * Z))
  : World -> list (outcome DistributedThrottler.ThrottleResult) * World :=
  sequence (map (fun c => DistributedThrottler.isAllowed config key c.1 c.2)
                calls).

(** The token level and the refill time the store holds for a key. *)
Definition stored_tokens (config : DistributedThrottler.ThrottleConfig)
    (key : string) (r : Redis) : option Q :=
  default ∅ (hashes r !! DistributedThrottler.redisKey config key) !! "tokens".

Definition stored_last_refill (config : DistributedThrottler.ThrottleConfig)
    (key : string) (r : Redis) : option Q :=
  default ∅ (hashes r !! DistributedThrottler.redisKey config key)
    !! "last_refill".

(** The bounds of a stored token level, and a bound on the stored refill
    time. *)
Definition level_at_most_burst (config : DistributedThrottler.ThrottleConfig)
    (key : string) (r : Redis) : Prop :=
  match stored_tokens config key r with
  | Some t => (t <= DistributedThrottler.burstLimit config)%Q
  | None => True
  end.

Definition level_not_negative (config : DistributedThrottler.ThrottleConfig)
    (key : string) (r : Redis) : Prop :=
  match stored_tokens config key r with
  | Some t => (0 <= t)%Q
  | None => True
  end.

Definition refilled_by (config : DistributedThrottler.ThrottleConfig)
    (key : string) (T : Z) (r : Redis) : Prop :=
  match stored_last_refill config key r with
  | Some l => (l <= inject_Z T)%Q
  | None => True
  end.

Definition is_returned {A} (o : outcome A) : Prop :=
  match o with Returned _ => True | Thrown _ => False end.

(** A policy under which a clock that steps back costs a token. *)
Definition one_per_second : DistributedThrottler.ThrottleConfig :=
  DistributedThrottler.new
    (DistributedThrottler.mkThrottleConfig 1 60 60000 None).

(** ** The adaptive ceiling in the words of the specification *)

(** Error rate above 10%: half; in (5%, 10%]: three quarters; below 1% with
    an average latency below 100 ms: one and a half; otherwise unchanged. *)
Definition spec_factor (errorRate avgLatency : Q) : Q :=
  if Qltb (1 # 10) errorRate then 1 # 2
  else if Qltb (5 # 100) errorRate then 3 # 4
  else if Qltb errorRate (1 # 100) && Qltb avgLatency 100 then 3 # 2
  else 1.

Definition clamp (lo hi x : Q) : Q := Qmax lo (Qmin hi x).

Definition spec_dynamic_ceiling (base : Z) (lo hi : Q)
    (errorRate avgLatency : Q) : Q :=
  clamp lo hi (inject_Z base * spec_factor errorRate avgLatency).

Definition error_rate (m : PerformanceMetric) : Q :=
  inject_Z (errors m) / inject_Z (total m).

Definition average_latency (m : PerformanceMetric) : Q :=
  totalResponseTime m / inject_Z (total m).

(** A ceiling of 5, and a caller half of whose requests failed. *)
Definition base_five : RateLimitConfig :=
  mkRateLimitConfig 60000 5 None None None None None None.

Definition failing_caller : AdaptiveRateLimiter.t :=
  AdaptiveRateLimiter.recordMetric "k" 20 500 2
    (AdaptiveRateLimiter.recordMetric "k" 20 200 1
       (AdaptiveRateLimiter.new base_five)).

(** ** Misconfigured policies *)




(** ** A request through the fixed-window middleware *)

(** The middleware at time [now]; if the request goes on, the response
    ends with [statusCode] at time [endTime]. *)
Definition serve (config : RateLimitConfig) (req : Request)
    (now statusCode endTime : Z) : IO Admission :=
  a <- RateLimiter.middleware config req now ;;
  match a with
  | Forwarded _ (Some on_end) => on_end statusCode endTime ;;; ret a
  | _ => ret a
  end.

(** The [auth] policy: 5 requests per 15 minutes, successes not counted. *)
Definition auth : RateLimitConfig :=
  RateLimiter.new
    (mkRateLimitConfig (15 * 60 * 1000) 5 (Some "auth") (Some true) None
                       None None None).

Definition anonymous_get : Request :=
  mkRequest (Some "10.0.0.1") None None "GET" "/login" 0.

(** ** The sliding window *)

(** Sequential sliding-window checks of one key, each with its clock
    reading and its random tag. *)
Definition sliding_checks (config : RateLimitConfig) (key : string)
    (calls : list (Z * N)) : World -> list (outcome bool) * World :=
  sequence (map (fun c => SlidingWindowRateLimiter.isAllowed config key c.1 c.2)
                calls).


(** The log as the code leaves it: the entries that are at least [W] old
    are gone, the tagged entry is in. *)
Definition slid (W now : Z) (member : Member) (entries : gmap Member Z)
  : gmap Member Z :=
  <[member := now]> (filter (λ ms : Member * Z, ¬ (ms.2 <= now - W)) entries).

Definition in_window (W now : Z) (entries : gmap Member Z) : Z :=
  Z.of_nat (size (filter (λ ms : Member * Z, now - W <= ms.2 ∧ ms.2 <= now)
                         entries)).

(** One request per second at most. *)
Definition one_per_window : RateLimitConfig :=
  mkRateLimitConfig 1000 1 None None None None None None.

(** Every entry of a log has its timestamp in [(lo, hi]]. *)
Definition all_within (lo hi : Z) (entries : gmap Member Z) : Prop :=
  forall m s, entries !! m = Some s -> lo < s <= hi.

(** ** Concurrent callers of the throttler *)

















(** * Further code of the limiter file *)

(** ** Fixed window: what a run of checks admits *)


Definition refused_answer (o : outcome RateResult) : Prop :=
  exists r, o = Returned r /\ allowed r = false /\ remaining r = 0.

(** [rateLimiters.upload]: 10 per hour, one unit of weight per started
    mebibyte; [req_content_length] is what [parseInt] makes of the
    [content-length] header, 0 when the header is absent. *)
Definition upload : RateLimitConfig :=
  RateLimiter.new
    (mkRateLimitConfig (60 * 60 * 1000) 10 (Some "upload") None None None None
       (Some (fun req => ceil_div (req_content_length req) (1024 * 1024)))).

(** [rateLimiters.api]: 100 per minute. *)
Definition api : RateLimitConfig :=
  RateLimiter.new
    (mkRateLimitConfig (60 * 1000) 100 (Some "api") None None None None None).

Definition is_rejected (a : Admission) : Prop :=
  match a with Rejected _ _ => True | _ => False end.

(** ** Token bucket: what a run of checks admits, and the middleware *)





Record ThrottleHeaders := mkThrottleHeaders {
  X_Throttle_Limit : Q;
  X_Throttle_Remaining : Z;
  Throttle_Retry_After : option Z
}.

(** What the throttler's middleware did with a request: the 429 answer,
    or [next()]. *)
Inductive Throttling :=
| Slowed (h : ThrottleHeaders) (r : DistributedThrottler.ThrottleResult)
| Passed (h : ThrottleHeaders).

(** [DistributedThrottler.middleware]. *)
Definition throttler_middleware (config : DistributedThrottler.ThrottleConfig)
    (req : Request) (now : Z) : IO Throttling :=
  let key := DistributedThrottler.generateKey req in
  let cost := DistributedThrottler.calculateCost req in
  result <- DistributedThrottler.isAllowed config key cost now ;;
  let limit := DistributedThrottler.burstLimit config in
  let left := Qfloor (DistributedThrottler.tokensRemaining result) in
  if negb (DistributedThrottler.allowed result)
  then
    ret (Slowed
           (mkThrottleHeaders limit left
              ((fun ra => Qceiling (ra / 1000))
                 <$> DistributedThrottler.retryAfter result))
           result)
  else ret (Passed (mkThrottleHeaders limit left None)).

(** [throttlers.api]: a burst of 20, 100 tokens per minute. *)
Definition api_throttler : DistributedThrottler.ThrottleConfig :=
  DistributedThrottler.new
    (DistributedThrottler.mkThrottleConfig 20 100 60000 None).


(** ** Adaptive limiter: a history of outcomes *)

(** Outcomes recorded for one key, each with its response time, its
    status code and the time of recording. *)
Definition record_all (key : string) (outcomes : list (Q * Z * Z))
    (self : AdaptiveRateLimiter.t) : AdaptiveRateLimiter.t :=
  foldl (fun s o => AdaptiveRateLimiter.recordMetric key o.1.1 o.1.2 o.2 s)
        self outcomes.

Definition count_errors (outcomes : list (Q * Z * Z)) : Z :=
  Z.of_nat (length (filter (λ o : Q * Z * Z, o.1.2 >= 400) outcomes)).

Definition total_time (outcomes : list (Q * Z * Z)) : Q :=
  foldr (fun o acc => (o.1.1 + acc)%Q) 0%Q outcomes.


(** ** Sliding window: the answers to a run of requests *)

(** The answers to requests that all count, on a log that already holds
    [logged] entries: a request is allowed while the entries, its own
    included, are at most the ceiling. *)
Fixpoint sliding_answers (ceiling : Z) (logged : nat) (calls : list (Z * N))
  : list (outcome bool) :=
  match calls with
  | [] => []
  | _ :: calls =>
      Returned (bool_decide (Z.of_nat (S logged) <= ceiling))
      :: sliding_answers ceiling (S logged) calls
  end.

(** ** class PerformanceOptimizer: the sizing helpers *)
Module PerformanceOptimizer.


Record Pagination := mkPagination {
  page : Z;
  pageSize : Z;
  offset : Z;
  prefetchNext : bool
}.

Definition optimizePagination (totalItems requestedPage requestedPageSize : Z)
  : Pagination :=
  let optimalPageSize :=
    if bool_decide (totalItems > 10000) then Z.min requestedPageSize 100
    else if bool_decide (totalItems < 100) then Z.min requestedPageSize 50
    else requestedPageSize in
  let page := Z.max 1 requestedPage in
  let offset := (page - 1) * optimalPageSize in
  let isLastPage := bool_decide (offset + optimalPageSize >= totalItems) in
  let prefetchNext := negb isLastPage && bool_decide (page <= 5) in
  mkPagination page optimalPageSize offset prefetchNext.

End PerformanceOptimizer.

(** * Properties *)

(** ** A store that answers *)

Lemma healthy_cases w :
  healthy w ->
  faults w = []
  \/ exists fs, faults w = false :: fs /\ Forall (λ b, b = false) fs.
Proof.
  unfold healthy. destruct (faults w) as [|b fs]; [by left|].
  intros H. inversion H; subst. right. eauto.
Qed.

Lemma command_healthy {A} (f : Redis -> A * Redis) w :
  healthy w ->
  exists w', command f w = (Returned (f (redis w)).1, w')
    /\ redis w' = (f (redis w)).2 /\ healthy w' /\ log w' = log w.
Proof.
  intros H. unfold command.
  destruct (healthy_cases w H) as [E | (fs & E & Hfs)]; rewrite E;
    destruct (f (redis w)) as [a r]; eexists; (split; [reflexivity|]);
    simpl; repeat split; unfold healthy; simpl; auto.
Qed.

Lemma RateLimiter_isAllowed_healthy cfg key weight now w :
  healthy w ->
  let wk := RateLimiter.windowKey cfg key now in
  let count := counter wk (redis w) + weight in
  let resetAt := (floor_div now (windowMs cfg) + 1) * windowMs cfg in
  exists w',
    RateLimiter.isAllowed cfg key weight now w =
      (Returned (mkRateResult (bool_decide (count <= maxRequests cfg))
                   (Z.max 0 (maxRequests cfg - count)) resetAt
                   (if bool_decide (count <= maxRequests cfg) then None
                    else Some (resetAt - now))), w')
    /\ healthy w'
    /\ strings (redis w') = <[wk := count]> (strings (redis w))
    /\ log w' = log w.
Proof.
  intros H wk count resetAt.
  unfold RateLimiter.isAllowed, try_catch, bind.
  fold wk.
  destruct (command_healthy (INCRBY wk weight) w H) as (w1 & E1 & R1 & H1 & L1).
  rewrite E1. simpl. fold count.
  destruct (bool_decide (count = weight)).
  - destruct (command_healthy (EXPIRE wk (inject_Z (ceil_div (windowMs cfg) 1000))) w1 H1)
      as (w2 & E2 & R2 & H2 & L2).
    rewrite E2. simpl. unfold ret.
    exists w2. split.
    + destruct (bool_decide (count <= maxRequests cfg)); reflexivity.
    + split; [exact H2|]. split; [|congruence].
      rewrite R2, R1. unfold EXPIRE. simpl.
      destruct (key_exists _ _); reflexivity.
  - unfold ret. exists w1. split.
    + destruct (bool_decide (count <= maxRequests cfg)); reflexivity.
    + split; [exact H1|]. split; [|congruence]. rewrite R1. reflexivity.
Qed.

(** ** Fixed window *)

Lemma floor_div_Zdiv a b : floor_div a b = a / b.
Proof. unfold floor_div. symmetry. apply Zdiv_Qdiv. Qed.

Lemma window_bounds now W :
  0 < W -> 0 < (floor_div now W + 1) * W - now <= W.
Proof.
  intros HW. rewrite floor_div_Zdiv.
  pose proof (Z.div_mod now W ltac:(lia)) as E.
  pose proof (Z.mod_pos_bound now W HW) as B. nia.
Qed.

Lemma fixed_window_admits cfg key n calls :
  forall w c0,
  healthy w ->
  counter (RateLimiter.keyOfWindow cfg key n) (redis w) = c0 ->
  Forall (λ c : Z * Z, 0 <= c.1 /\ floor_div c.2 (windowMs cfg) = n) calls ->
  c0 + total_weight (calls.*1) <= maxRequests cfg ->
  exists w',
    fixed_window_checks cfg key calls w =
      (admitted_answers (maxRequests cfg) ((n + 1) * windowMs cfg) c0 (calls.*1), w')
    /\ healthy w'
    /\ counter (RateLimiter.keyOfWindow cfg key n) (redis w')
       = c0 + total_weight (calls.*1).
Proof.
  induction calls as [|[wt now] calls IH]; intros w c0 Hw Hc Hall Hsum.
  - exists w. simpl. repeat split; auto. unfold total_weight; simpl; lia.
  - apply Forall_cons in Hall as [[Hwt Hn] Hall']. simpl in Hwt, Hn.
    unfold fixed_window_checks in *. simpl.
    destruct (RateLimiter_isAllowed_healthy cfg key wt now w Hw)
      as (w1 & E & H1 & S1 & _).
    unfold RateLimiter.windowKey in E, S1. rewrite Hn, Hc in E, S1.
    rewrite E.
    assert (Hpos : 0 <= total_weight (calls.*1)).
    { clear -Hall'. induction Hall' as [|[a b] l [Ha _] _ IHl]; cbn; [lia|].
      simpl in Ha. unfold total_weight in IHl. lia. }
    change (total_weight ((wt, now) :: calls).*1)
      with (wt + total_weight (calls.*1)) in *.
    set (k := RateLimiter.keyOfWindow cfg key n) in *.
    destruct (IH w1 (c0 + wt) H1) as (w' & E' & H' & C'); auto.
    { unfold counter. rewrite S1, lookup_insert_eq. reflexivity. }
    { lia. }
    rewrite E'. exists w'. split; [|split; [exact H'|]].
    2:{ rewrite C'. symmetry. apply Z.add_assoc. }
    rewrite bool_decide_eq_true_2 by lia. reflexivity.
Qed.

(** C2. Fixed window, ceiling [maxRequests] and window length [windowMs]:
    sequential checks of one key that fall in one window [n], on a fresh
    counter and a store that answers, with non-negative weights that sum to
    at most the ceiling, are all allowed, each with
    [remaining = max 0 (ceiling - cumulative count)] and
    [resetAt = (n + 1) * windowMs]; one more check in that window whose
    weight brings the count above the ceiling is rejected with
    [retryAfter = resetAt - now], and [0 < retryAfter <= windowMs]. *)
Theorem fixed_window_sequence cfg key n calls weight now w :
  0 < windowMs cfg ->
  healthy w ->
  strings (redis w) !! RateLimiter.keyOfWindow cfg key n = None ->
  Forall (λ c : Z * Z, 0 <= c.1 /\ floor_div c.2 (windowMs cfg) = n) calls ->
  total_weight (calls.*1) <= maxRequests cfg ->
  floor_div now (windowMs cfg) = n ->
  total_weight (calls.*1) + weight > maxRequests cfg ->
  exists w1 w2 r,
    fixed_window_checks cfg key calls w =
      (admitted_answers (maxRequests cfg) ((n + 1) * windowMs cfg) 0 (calls.*1), w1)
    /\ RateLimiter.isAllowed cfg key weight now w1 = (Returned r, w2)
    /\ allowed r = false
    /\ resetAt r = (n + 1) * windowMs cfg
    /\ retryAfter r = Some (resetAt r - now)
    /\ 0 < resetAt r - now <= windowMs cfg.
Proof.
  intros HW Hw Hfresh Hall Hsum Hn Hover.
  destruct (fixed_window_admits cfg key n calls w 0 Hw) as (w1 & E1 & H1 & C1);
    auto.
  { unfold counter. rewrite Hfresh. reflexivity. }
  destruct (RateLimiter_isAllowed_healthy cfg key weight now w1 H1)
    as (w2 & E2 & _).
  unfold RateLimiter.windowKey in E2. rewrite Hn, C1 in E2.
  rewrite bool_decide_eq_false_2 in E2 by lia.
  eexists w1, w2, _. split; [exact E1|]. split; [exact E2|]. simpl.
  repeat split; try reflexivity.
  all: pose proof (window_bounds now (windowMs cfg) HW) as B; rewrite Hn in B; lia.
Qed.

Lemma fixed_window_sequence_witness :
  exists w1 w2 r,
    fixed_window_checks five_per_minute "k"
        [(1, 0); (1, 10); (1, 20); (1, 30); (1, 40)] fresh_world =
      (admitted_answers 5 60000 0 [1; 1; 1; 1; 1], w1)
    /\ RateLimiter.isAllowed five_per_minute "k" 1 50 w1 = (Returned r, w2)
    /\ allowed r = false
    /\ resetAt r = 60000
    /\ retryAfter r = Some (resetAt r - 50)
    /\ 0 < resetAt r - 50 <= 60000.
Proof.
  apply (fixed_window_sequence five_per_minute "k" 0
           [(1, 0); (1, 10); (1, 20); (1, 30); (1, 40)] 1 50 fresh_world).
  - reflexivity.
  - constructor.
  - reflexivity.
  - repeat (constructor; [split; [discriminate | reflexivity] |]). constructor.
  - discriminate.
  - reflexivity.
  - reflexivity.
Defined.

(** The scenario of the specification, evaluated: five calls of weight 1
    leave 4, 3, 2, 1, 0; the sixth is rejected. *)
Example five_per_minute_scenario :
  (fixed_window_checks five_per_minute "k"
     [(1, 0); (1, 10); (1, 20); (1, 30); (1, 40); (1, 50)] fresh_world).1 =
  [ Returned (mkRateResult true 4 60000 None);
    Returned (mkRateResult true 3 60000 None);
    Returned (mkRateResult true 2 60000 None);
    Returned (mkRateResult true 1 60000 None);
    Returned (mkRateResult true 0 60000 None);
    Returned (mkRateResult false 0 60000 (Some 59950)) ].
Proof. vm_compute. reflexivity. Qed.

(** ** Fail-open *)

Lemma command_rejects {A} (f : Redis -> A * Redis) w fs :
  faults w = true :: fs ->
  command f w = (Thrown StoreUnavailable, mkWorld (redis w) fs (log w)).
Proof. intros E. unfold command. rewrite E. reflexivity. Qed.

(** C5. Fail-open: when the store rejects the command of a check, each of
    the three limiters returns [allowed = true] and throws nothing; the
    fixed-window limiter reports [remaining = maxRequests], the token-bucket
    throttler [tokensRemaining = burstLimit]; the store is left as it was. *)
Theorem fail_open w fs :
  faults w = true :: fs ->
  (forall cfg key weight now, exists w',
      RateLimiter.isAllowed cfg key weight now w =
        (Returned (mkRateResult true (maxRequests cfg) (now + windowMs cfg) None), w')
      /\ redis w' = redis w)
  /\ (forall cfg key cost now, exists w',
      DistributedThrottler.isAllowed cfg key cost now w =
        (Returned (DistributedThrottler.mkThrottleResult true
                     (DistributedThrottler.burstLimit cfg) None), w')
      /\ redis w' = redis w)
  /\ (forall cfg key now nonce, exists w',
      SlidingWindowRateLimiter.isAllowed cfg key now nonce w = (Returned true, w')
      /\ redis w' = redis w).
Proof.
  intros E. repeat split; intros.
  - unfold RateLimiter.isAllowed, try_catch, bind.
    rewrite (command_rejects _ w fs E). simpl. eauto.
  - unfold DistributedThrottler.isAllowed, try_catch, bind.
    rewrite (command_rejects _ w fs E). simpl. eauto.
  - unfold SlidingWindowRateLimiter.isAllowed, try_catch, bind.
    rewrite (command_rejects _ w fs E). simpl. eauto.
Qed.

Lemma fixed_window_fail_open_on_expire cfg key weight now w fs :
  faults w = false :: true :: fs ->
  strings (redis w) !! RateLimiter.windowKey cfg key now = None ->
  exists w',
    RateLimiter.isAllowed cfg key weight now w =
      (Returned (mkRateResult true (maxRequests cfg) (now + windowMs cfg) None), w')
    /\ counter (RateLimiter.windowKey cfg key now) (redis w') = weight.
Proof.
  intros E Hnone.
  unfold RateLimiter.isAllowed, try_catch, bind, command. rewrite E. simpl.
  unfold counter. rewrite Hnone. simpl.
  rewrite bool_decide_eq_true_2 by reflexivity. simpl.
  eexists. split; [reflexivity|]. simpl. rewrite lookup_insert_eq. reflexivity.
Qed.

Lemma try_catch_returns {A} (c : IO A) (h : exn -> IO A) :
  (forall e w, exists a w', h e w = (Returned a, w')) ->
  forall w, exists a w', try_catch c h w = (Returned a, w').
Proof.
  intros Hh w. unfold try_catch. destruct (c w) as [[a|e] w']; eauto.
Qed.


Lemma DistributedThrottler_isAllowed_returns cfg key cost now w :
  exists r w', DistributedThrottler.isAllowed cfg key cost now w = (Returned r, w').
Proof. apply try_catch_returns. intros e w0. cbv [bind logger_error ret]. eauto. Qed.

Lemma SlidingWindowRateLimiter_isAllowed_returns cfg key now nonce w :
  exists r w', SlidingWindowRateLimiter.isAllowed cfg key now nonce w = (Returned r, w').
Proof. apply try_catch_returns. intros e w0. cbv [bind logger_error ret]. eauto. Qed.

Lemma fail_open_witness :
  (forall cfg key weight now, exists w',
      RateLimiter.isAllowed cfg key weight now (mkWorld empty_redis [true] []) =
        (Returned (mkRateResult true (maxRequests cfg) (now + windowMs cfg) None), w')
      /\ redis w' = empty_redis)
  /\ (forall cfg key cost now, exists w',
      DistributedThrottler.isAllowed cfg key cost now (mkWorld empty_redis [true] []) =
        (Returned (DistributedThrottler.mkThrottleResult true
                     (DistributedThrottler.burstLimit cfg) None), w')
      /\ redis w' = empty_redis)
  /\ (forall cfg key now nonce, exists w',
      SlidingWindowRateLimiter.isAllowed cfg key now nonce
        (mkWorld empty_redis [true] []) = (Returned true, w')
      /\ redis w' = empty_redis).
Proof. apply (fail_open (mkWorld empty_redis [true] []) []). reflexivity. Defined.

(** ** Token bucket *)

Section TokenBucketProperties.
Import DistributedThrottler.

Lemma Qleb_true a b : Qleb a b = true <-> (a <= b)%Q.
Proof. apply Qle_bool_iff. Qed.

Lemma Qleb_false a b : Qleb a b = false <-> (b < a)%Q.
Proof.
  unfold Qleb. rewrite <- not_true_iff_false, Qle_bool_iff. split.
  - apply Qnot_le_lt.
  - apply Qlt_not_le.
Qed.

Lemma stored_after_refill cfg key t l secs r :
  let r' := (EXPIRE (DistributedThrottler.redisKey cfg key) secs
               (HMSET2 (DistributedThrottler.redisKey cfg key)
                       "tokens" t "last_refill" l r)).2 in
  stored_tokens cfg key r' = Some t /\ stored_last_refill cfg key r' = Some l.
Proof.
  unfold stored_tokens, stored_last_refill, EXPIRE, HMSET2.
  destruct (key_exists _ _); simpl; rewrite lookup_insert_eq; simpl;
    (split; [rewrite lookup_insert_ne by discriminate|]);
    apply lookup_insert_eq.
Qed.

(** One check on a store that answers. *)
Lemma throttle_check_healthy cfg key cost now w :
  healthy w ->
  let B := DistributedThrottler.burstLimit cfg in
  let R := (DistributedThrottler.sustainedLimit cfg
            / (DistributedThrottler.windowMs cfg / 1000))%Q in
  let tokens := default B (stored_tokens cfg key (redis w)) in
  let last := default (inject_Z now) (stored_last_refill cfg key (redis w)) in
  let elapsed := ((inject_Z now - last) / 1000)%Q in
  let refilled := Qmin B (tokens + elapsed * R) in
  exists r w',
    DistributedThrottler.isAllowed cfg key cost now w = (Returned r, w')
    /\ healthy w'
    /\ stored_last_refill cfg key (redis w') = Some (inject_Z now)
    /\ ((cost <= refilled)%Q ->
        r = DistributedThrottler.mkThrottleResult true (refilled - cost) None
        /\ stored_tokens cfg key (redis w') = Some (refilled - cost)%Q)
    /\ ((refilled < cost)%Q ->
        r = DistributedThrottler.mkThrottleResult false refilled
              (Some ((cost - refilled) / R * 1000)%Q)
        /\ stored_tokens cfg key (redis w') = Some refilled).
Proof.
  intros Hw B R tokens last elapsed refilled.
  unfold DistributedThrottler.isAllowed, try_catch, bind.
  match goal with |- context [command ?f w] =>
    destruct (command_healthy f w Hw) as (w1 & E & Hr & H1 & _); rewrite E; clear E
  end.
  unfold DistributedThrottler.luaScript, HMGET2 in *.
  cbn [fst snd] in *.
  change (default ∅ (hashes (redis w) !! DistributedThrottler.redisKey cfg key)
            !! "tokens") with (stored_tokens cfg key (redis w)) in *.
  change (default ∅ (hashes (redis w) !! DistributedThrottler.redisKey cfg key)
            !! "last_refill") with (stored_last_refill cfg key (redis w)) in *.
  fold B tokens last in Hr |- *. fold R in Hr |- *. fold elapsed in Hr |- *.
  fold refilled in Hr |- *.
  destruct (Qleb cost refilled) eqn:Hc; cbn [fst snd] in *.
  - apply Qleb_true in Hc.
    rewrite bool_decide_eq_false_2 by discriminate.
    eexists _, _. split; [reflexivity|]. split; [exact H1|]. rewrite Hr.
    edestruct stored_after_refill as [Ht Hl]. split; [exact Hl|].
    split; [intros _; split; [reflexivity | exact Ht]|].
    intros Hlt. exfalso. exact (Qlt_not_le _ _ Hlt Hc).
  - apply Qleb_false in Hc.
    rewrite bool_decide_eq_true_2 by reflexivity.
    eexists _, _. split; [reflexivity|]. split; [exact H1|]. rewrite Hr.
    edestruct stored_after_refill as [Ht Hl]. split; [exact Hl|].
    split; [intros Hle; exfalso; exact (Qlt_not_le _ _ Hc Hle)|].
    intros _. split; [reflexivity | exact Ht].
Qed.



(** The in-process bucket refills and consumes the same way. *)
Lemma local_bucket_consume n now b :
  let refilled :=
    Qmin (TokenBucket.capacity b)
         (TokenBucket.tokens b
          + inject_Z (now - TokenBucket.lastRefill b) / 1000
            * TokenBucket.refillRate b) in
  ((n <= refilled)%Q ->
   TokenBucket.consume n now b =
     (true, TokenBucket.mk (refilled - n) now (TokenBucket.capacity b)
                           (TokenBucket.refillRate b)))
  /\ ((refilled < n)%Q ->
      TokenBucket.consume n now b =
        (false, TokenBucket.mk refilled now (TokenBucket.capacity b)
                               (TokenBucket.refillRate b))).
Proof.
  intros refilled. unfold TokenBucket.consume, TokenBucket.refill.
  cbn [TokenBucket.tokens TokenBucket.lastRefill TokenBucket.capacity
       TokenBucket.refillRate].
  fold refilled. split; intros H.
  - apply Qleb_true in H. rewrite H. reflexivity.
  - apply Qleb_false in H. rewrite H. reflexivity.
Qed.

(** Refill arithmetic of the specification: a bucket of 10 tokens refilled
    at 10 per minute, drained at time 0, holds 5 tokens 30 seconds later. *)
Example refill_after_thirty_seconds :
  (fst (TokenBucket.getTokens 30000
          (snd (TokenBucket.consume 10 0 (TokenBucket.new 10 (10 / 60) 0))))
   == 5)%Q.
Proof. vm_compute. reflexivity. Qed.

(** The store after one check: untouched, or holding what the script
    wrote. *)
Lemma isAllowed_store cfg key cost now w :
  let w' := (DistributedThrottler.isAllowed cfg key cost now w).2 in
  redis w' = redis w
  \/ redis w' = (luaScript (redisKey cfg key) (burstLimit cfg)
                   (sustainedLimit cfg) (windowMs cfg) cost (inject_Z now)
                   (redis w)).2.
Proof.
  unfold DistributedThrottler.isAllowed, try_catch, bind, command.
  destruct (luaScript _ _ _ _ _ _ _) as [[a t] r'] eqn:E.
  destruct (faults w) as [|[] fs]; simpl.
  - right. destruct (bool_decide _); reflexivity.
  - left. reflexivity.
  - right. destruct (bool_decide _); reflexivity.
Qed.

Lemma luaScript_store cfg key cost now r :
  let B := burstLimit cfg in
  let R := (sustainedLimit cfg / (windowMs cfg / 1000))%Q in
  let tokens := default B (stored_tokens cfg key r) in
  let last := default (inject_Z now) (stored_last_refill cfg key r) in
  let refilled := Qmin B (tokens + (inject_Z now - last) / 1000 * R) in
  let r' := (luaScript (redisKey cfg key) B (sustainedLimit cfg) (windowMs cfg)
               cost (inject_Z now) r).2 in
  stored_last_refill cfg key r' = Some (inject_Z now)
  /\ stored_tokens cfg key r' =
       Some (if Qleb cost refilled then refilled - cost else refilled)%Q.
Proof.
  intros B R tokens last refilled. unfold luaScript, HMGET2. cbn [fst snd].
  change (default ∅ (hashes r !! redisKey cfg key) !! "tokens")
    with (stored_tokens cfg key r).
  change (default ∅ (hashes r !! redisKey cfg key) !! "last_refill")
    with (stored_last_refill cfg key r).
  fold B tokens last. fold R. fold refilled.
  destruct (Qleb cost refilled); cbn [fst snd];
    edestruct stored_after_refill as [Ht Hl]; split; eassumption.
Qed.

Lemma rate_not_negative S W :
  (0 <= S)%Q -> (0 < W)%Q -> (0 <= S / (W / 1000))%Q.
Proof.
  intros HS HW.
  assert (H : (0 < W / 1000)%Q). { apply Qlt_shift_div_l; [reflexivity|]. lra. }
  apply Qle_shift_div_l; [exact H|]. lra.
Qed.

Lemma check_keeps_ceiling cfg key cost now w :
  (0 <= cost)%Q ->
  level_at_most_burst cfg key (redis w) ->
  level_at_most_burst cfg key (redis (isAllowed cfg key cost now w).2).
Proof.
  intros Hcost Hle.
  destruct (isAllowed_store cfg key cost now w) as [E|E]; simpl in E;
    unfold level_at_most_burst; rewrite E; [exact Hle|].
  destruct (luaScript_store cfg key cost now (redis w)) as [_ Ht].
  rewrite Ht. clear Ht E.
  match goal with |- context [Qleb cost ?x] => set (refilled := x) end.
  assert (Hr : (refilled <= burstLimit cfg)%Q) by apply Q.le_min_l.
  destruct (Qleb cost refilled); lra.
Qed.

Lemma check_keeps_floor cfg key cost now T w :
  (0 <= burstLimit cfg)%Q -> (0 <= sustainedLimit cfg)%Q ->
  (0 < windowMs cfg)%Q ->
  T <= now ->
  level_not_negative cfg key (redis w) ->
  refilled_by cfg key T (redis w) ->
  let w' := (isAllowed cfg key cost now w).2 in
  level_not_negative cfg key (redis w') /\ refilled_by cfg key now (redis w').
Proof.
  intros HB HS HW HT Hlevel Hlast.
  assert (HTq : (inject_Z T <= inject_Z now)%Q) by (rewrite <- Zle_Qle; exact HT).
  destruct (isAllowed_store cfg key cost now w) as [E|E]; simpl in E |- *;
    unfold level_not_negative, refilled_by; rewrite E.
  - split; [exact Hlevel|]. unfold refilled_by in Hlast.
    destruct (stored_last_refill cfg key (redis w)); [lra | exact I].
  - destruct (luaScript_store cfg key cost now (redis w)) as [Hl Ht].
    rewrite Ht, Hl. split; [|lra]. clear Ht Hl E.
    pose proof (rate_not_negative _ _ HS HW) as HR.
    set (R := (sustainedLimit cfg / (windowMs cfg / 1000))%Q) in *.
    match goal with |- context [Qleb cost ?x] => set (refilled := x) end.
    assert (Hr : (0 <= refilled)%Q).
    { subst refilled. apply Q.min_glb; [exact HB|].
      unfold level_not_negative in Hlevel. unfold refilled_by in Hlast.
      set (tokens := default (burstLimit cfg) (stored_tokens cfg key (redis w))).
      set (last := default (inject_Z now) (stored_last_refill cfg key (redis w))).
      assert (Htok : (0 <= tokens)%Q).
      { subst tokens. destruct (stored_tokens cfg key (redis w)); simpl; assumption. }
      assert (Hdt : (0 <= (inject_Z now - last) / 1000)%Q).
      { subst last. destruct (stored_last_refill cfg key (redis w)); simpl;
          apply Qle_shift_div_l; try reflexivity; lra. }
      pose proof (Qmult_le_0_compat _ _ Hdt HR). lra. }
    destruct (Qleb cost refilled) eqn:Hc; [apply Qleb_true in Hc|]; lra.
Qed.

Lemma sequence_cons {A} (c : IO A) cs w :
  sequence (c :: cs) w =
    ((c w).1 :: (sequence cs (c w).2).1, (sequence cs (c w).2).2).
Proof.
  simpl. destruct (c w) as [o w1]. simpl.
  destruct (sequence cs w1) as [os w2]. reflexivity.
Qed.

Lemma checks_return cfg key calls :
  forall w, Forall is_returned (throttle_checks cfg key calls w).1.
Proof.
  unfold throttle_checks.
  induction calls as [|[cost now] calls IH]; intros w; [constructor|].
  cbn [map]. rewrite sequence_cons. cbn [fst snd]. constructor; [|apply IH].
  destruct (DistributedThrottler_isAllowed_returns cfg key cost now w)
    as (r & w' & E).
  rewrite E. exact I.
Qed.

Lemma checks_keep_ceiling cfg key calls :
  forall w,
    Forall (λ c : Q * Z, (0 <= c.1)%Q) calls ->
    level_at_most_burst cfg key (redis w) ->
    level_at_most_burst cfg key (redis (throttle_checks cfg key calls w).2).
Proof.
  unfold throttle_checks.
  induction calls as [|[cost now] calls IH]; intros w Hcost Hw; [exact Hw|].
  apply Forall_cons in Hcost as [Hc Hcost].
  cbn [map]. rewrite sequence_cons. cbn [fst snd].
  apply IH; [exact Hcost|]. apply check_keeps_ceiling; assumption.
Qed.

Lemma checks_keep_floor cfg key calls :
  (0 <= burstLimit cfg)%Q -> (0 <= sustainedLimit cfg)%Q ->
  (0 < windowMs cfg)%Q ->
  forall w T,
    Sorted Z.le (T :: calls.*2) ->
    level_not_negative cfg key (redis w) ->
    refilled_by cfg key T (redis w) ->
    level_not_negative cfg key (redis (throttle_checks cfg key calls w).2).
Proof.
  intros HB HS HW. unfold throttle_checks.
  induction calls as [|[cost now] calls IH]; intros w T Hsorted Hw HT;
    [exact Hw|].
  cbn [map]. rewrite sequence_cons. cbn [fst snd].
  change (((cost, now) :: calls).*2) with (now :: calls.*2) in Hsorted.
  apply Sorted_inv in Hsorted as [Hsorted Hhd].
  apply HdRel_inv in Hhd.
  destruct (check_keeps_floor cfg key cost now T w HB HS HW Hhd Hw HT)
    as [Hlevel Hlast].
  exact (IH _ now Hsorted Hlevel Hlast).
Qed.

(** C7, as the code has it.  Over any sequence of checks of a key never
    seen before, with non-negative costs, whatever the store's failures:
    every call returns, and the stored level never exceeds [burstLimit];
    it is also never negative provided the limits are not negative, the
    window is positive and the clock readings of the calls never step
    back.  The script has no clamp at zero. *)
Theorem token_level_bounds cfg key calls w :
  Forall (λ c : Q * Z, (0 <= c.1)%Q) calls ->
  hashes (redis w) !! redisKey cfg key = None ->
  let out := throttle_checks cfg key calls w in
  Forall is_returned out.1
  /\ level_at_most_burst cfg key (redis out.2)
  /\ ((0 <= burstLimit cfg)%Q -> (0 <= sustainedLimit cfg)%Q ->
      (0 < windowMs cfg)%Q -> Sorted Z.le (calls.*2) ->
      level_not_negative cfg key (redis out.2)).
Proof.
  intros Hcost Hfresh out. subst out.
  assert (Hnone : stored_tokens cfg key (redis w) = None
                  /\ stored_last_refill cfg key (redis w) = None).
  { unfold stored_tokens, stored_last_refill. rewrite Hfresh. simpl.
    split; apply lookup_empty. }
  destruct Hnone as [Ht Hl].
  split; [apply checks_return|]. split.
  - apply checks_keep_ceiling; [exact Hcost|].
    unfold level_at_most_burst. rewrite Ht. exact I.
  - intros HB HS HW Hsorted.
    destruct calls as [|[cost now] calls]; [|
      apply (checks_keep_floor cfg key _ HB HS HW w now)].
    + unfold level_not_negative. simpl. rewrite Ht. exact I.
    + constructor; [exact Hsorted|]. constructor. simpl. lia.
    + unfold level_not_negative. rewrite Ht. exact I.
    + unfold refilled_by. rewrite Hl. exact I.
Qed.

(** A clock reading that steps back takes tokens away: after a check at
    time 1000 that empties the bucket, a check at time 0 stores a level of
    -1. *)
Lemma token_level_goes_negative :
  ~ level_not_negative one_per_second "k"
      (redis (throttle_checks one_per_second "k"
                [(1%Q, 1000); (1%Q, 0)] fresh_world).2).
Proof. vm_compute. intros H. apply H. reflexivity. Qed.

Lemma token_level_bounds_witness :
  let out := throttle_checks one_per_second "k" [(1%Q, 0); (1%Q, 1000)] fresh_world in
  Forall is_returned out.1
  /\ level_at_most_burst one_per_second "k" (redis out.2)
  /\ level_not_negative one_per_second "k" (redis out.2).
Proof.
  destruct (token_level_bounds one_per_second "k" [(1%Q, 0); (1%Q, 1000)] fresh_world)
    as (Hr & Hc & Hf).
  - repeat constructor; discriminate.
  - reflexivity.
  - split; [exact Hr|]. split; [exact Hc|]. apply Hf.
    + discriminate.
    + discriminate.
    + reflexivity.
    + repeat constructor; discriminate.
Defined.

End TokenBucketProperties.

(** ** Adaptive ceiling *)

Lemma Qltb_true a b : Qltb a b = true <-> (a < b)%Q.
Proof.
  unfold Qltb. rewrite negb_true_iff, <- not_true_iff_false, Qle_bool_iff.
  split; [apply Qnot_le_lt | apply Qlt_not_le].
Qed.

Lemma Qfloor_scale_one z : Qfloor (inject_Z z * 1) = z.
Proof. rewrite <- (Qfloor_Z z) at 2. apply Qfloor_comp. ring. Qed.

(** C6, as the code has it.  For a key with a recorded profile the dynamic
    ceiling is the floor of the base ceiling times the factor of the
    specification (1/2 above 10% errors, 3/4 in (5%, 10%], 3/2 below 1%
    errors with an average latency below 100 ms, 1 otherwise); nothing
    clamps it to a range.  With more than 10% errors it is at most half the
    base ceiling. *)
Theorem dynamic_ceiling self key m :
  AdaptiveRateLimiter.performanceMetrics self !! key = Some m ->
  0 < total m ->
  let base := maxRequests (AdaptiveRateLimiter.baseConfig self) in
  AdaptiveRateLimiter.getDynamicLimit self key
    = Qfloor (inject_Z base * spec_factor (error_rate m) (average_latency m))
  /\ ((1 # 10 < error_rate m)%Q ->
      (inject_Z (AdaptiveRateLimiter.getDynamicLimit self key)
       <= inject_Z base * (1 # 2))%Q).
Proof.
  intros Hm _ base.
  assert (E : AdaptiveRateLimiter.getDynamicLimit self key
    = Qfloor (inject_Z base * spec_factor (error_rate m) (average_latency m))).
  { unfold AdaptiveRateLimiter.getDynamicLimit. rewrite Hm.
    fold base. fold (error_rate m). fold (average_latency m).
    unfold spec_factor.
    destruct (Qltb (1 # 10) (error_rate m)) eqn:H1.
    - apply Qltb_true in H1.
      assert (H3 : Qltb (error_rate m) (1 # 100) = false).
      { apply not_true_iff_false. rewrite Qltb_true. lra. }
      rewrite H3. cbn [andb]. reflexivity.
    - destruct (Qltb (5 # 100) (error_rate m)) eqn:H2.
      + apply Qltb_true in H2.
        assert (H3 : Qltb (error_rate m) (1 # 100) = false).
        { apply not_true_iff_false. rewrite Qltb_true. lra. }
        rewrite H3. cbn [andb]. apply Qfloor_comp. lra.
      + destruct (Qltb (error_rate m) (1 # 100) && Qltb (average_latency m) 100).
        * apply Qfloor_comp. lra.
        * symmetry. apply Qfloor_scale_one. }
  split; [exact E|].
  intros Hhigh. rewrite E. unfold spec_factor.
  apply Qltb_true in Hhigh. rewrite Hhigh. apply Qfloor_le.
Qed.

Lemma dynamic_ceiling_witness :
  AdaptiveRateLimiter.getDynamicLimit failing_caller "k" = 2
  /\ (inject_Z (AdaptiveRateLimiter.getDynamicLimit failing_caller "k")
      <= inject_Z 5 * (1 # 2))%Q.
Proof.
  destruct (dynamic_ceiling failing_caller "k" (mkPerformanceMetric 2 1 40 2))
    as [E Hhalf].
  - reflexivity.
  - reflexivity.
  - split; [rewrite E; reflexivity | apply Hhalf; reflexivity].
Defined.

(** A ceiling of 5 and a caller with 50% errors: the specification's
    ceiling, clamped to the range [1, 10], is 5/2; the code's is 2. *)
Lemma dynamic_ceiling_differs :
  exists m,
    AdaptiveRateLimiter.performanceMetrics failing_caller !! "k" = Some m
    /\ ~ (inject_Z (AdaptiveRateLimiter.getDynamicLimit failing_caller "k")
          == spec_dynamic_ceiling (maxRequests base_five) 1 10
               (error_rate m) (average_latency m))%Q.
Proof.
  eexists. split; [reflexivity|]. vm_compute. discriminate.
Qed.

(** Every recorded profile has counted at least one request, so the
    ratios above are well defined. *)
Lemma recordMetric_total_positive key responseTime statusCode now self :
  (forall k m, AdaptiveRateLimiter.performanceMetrics self !! k = Some m ->
               0 < total m) ->
  forall k m,
    AdaptiveRateLimiter.performanceMetrics
      (AdaptiveRateLimiter.recordMetric key responseTime statusCode now self)
      !! k = Some m ->
    0 < total m.
Proof.
  intros Hall k m. unfold AdaptiveRateLimiter.recordMetric. simpl.
  destruct (decide (key = k)) as [->|Hne].
  - rewrite lookup_insert_eq. intros [= <-]. simpl.
    destruct (AdaptiveRateLimiter.performanceMetrics self !! k) as [m0|] eqn:E;
      simpl; [|lia].
    specialize (Hall k m0 E). lia.
  - rewrite lookup_insert_ne by exact Hne. apply Hall.
Qed.

Lemma evicted_profile_absent now self key m :
  AdaptiveRateLimiter.performanceMetrics self !! key = Some m ->
  now - lastUpdate m > 3600000 ->
  AdaptiveRateLimiter.performanceMetrics
    (AdaptiveRateLimiter.cleanOldMetrics now self) !! key = None.
Proof.
  intros Hm Hold. unfold AdaptiveRateLimiter.cleanOldMetrics. simpl.
  apply map_lookup_filter_None. right. intros m' Hm' Hkeep.
  rewrite Hm in Hm'. injection Hm' as <-. simpl in Hkeep. lia.
Qed.

Lemma fresh_limiter_has_no_profile config key :
  AdaptiveRateLimiter.performanceMetrics (AdaptiveRateLimiter.new config)
    !! key = None.
Proof. apply lookup_empty. Qed.

(** C10. A key with no recorded profile (none recorded yet, or the profile
    evicted by the clean-up timer) gets exactly the base ceiling. *)
Theorem base_ceiling_without_profile self key :
  AdaptiveRateLimiter.performanceMetrics self !! key = None ->
  AdaptiveRateLimiter.getDynamicLimit self key
    = maxRequests (AdaptiveRateLimiter.baseConfig self).
Proof.
  intros Hnone. unfold AdaptiveRateLimiter.getDynamicLimit.
  rewrite Hnone. reflexivity.
Qed.

Lemma base_ceiling_without_profile_witness :
  AdaptiveRateLimiter.getDynamicLimit
    (AdaptiveRateLimiter.cleanOldMetrics 3600003 failing_caller) "k" = 5.
Proof.
  apply (base_ceiling_without_profile
           (AdaptiveRateLimiter.cleanOldMetrics 3600003 failing_caller) "k").
  apply (evicted_profile_absent 3600003 failing_caller "k"
           (mkPerformanceMetric 2 1 40 2)); reflexivity.
Defined.

(** ** Construction *)



(** ** Refund *)


(** C8 at the failing input: a request admitted by the [auth] policy one
    millisecond before its window closes and answered with status 200 two
    milliseconds later.  The refund leaves the counter of the window of
    admission at 1 and takes 1 from the counter of the next window, which
    had counted nothing; the next request of that window is then counted
    as if it were none. *)
Theorem refund_after_rollover :
  let w := (serve auth anonymous_get 899999 200 900001 fresh_world).2 in
  counter "auth:10.0.0.1:anonymous:0" (redis w) = 1
  /\ strings (redis fresh_world) !! "auth:10.0.0.1:anonymous:1" = None
  /\ strings (redis w) !! "auth:10.0.0.1:anonymous:1" = Some (-1)
  /\ (RateLimiter.isAllowed auth "10.0.0.1:anonymous" 1 900002 w).1
     = Returned (mkRateResult true 5 1800000 None).
Proof. vm_compute. repeat split; reflexivity. Qed.

(** ** Sliding window *)

Lemma zset_put_zset k z r : zset k (put_zset k z r) = z.
Proof. unfold zset, put_zset. simpl. rewrite lookup_insert_eq. reflexivity. Qed.

Lemma zset_EXPIRE k secs r : zset k (EXPIRE k secs r).2 = zset k r.
Proof. unfold EXPIRE. destruct (key_exists k r); reflexivity. Qed.

Lemma pipeline_spec k windowStart now member ttl r :
  let z' := <[member := now]>
              (filter (λ ms : Member * Z, ¬ (ms.2 <= windowStart)) (zset k r)) in
  (SlidingWindowRateLimiter.pipeline k windowStart now member ttl r).1.1.2
    = Z.of_nat (size (filter (λ ms : Member * Z,
                                windowStart <= ms.2 ∧ ms.2 <= now) z'))
  /\ zset k (SlidingWindowRateLimiter.pipeline k windowStart now member ttl r).2
     = z'.
Proof.
  intros z'. unfold SlidingWindowRateLimiter.pipeline.
  unfold ZREMRANGEBYSCORE_neginf, ZADD, ZCOUNT.
  rewrite !zset_put_zset. fold z'.
  destruct (EXPIRE _ _ _) as [r3 r'] eqn:E. cbn [fst snd]. split; [reflexivity|].
  change r' with (r3, r').2. rewrite <- E, zset_EXPIRE.
  apply zset_put_zset.
Qed.

Lemma SlidingWindow_isAllowed_healthy cfg key now nonce w :
  healthy w ->
  let z' := slid (windowMs cfg) now (now, nonce)
                 (zset ("sliding:" +:+ key) (redis w)) in
  exists w',
    SlidingWindowRateLimiter.isAllowed cfg key now nonce w =
      (Returned (bool_decide (in_window (windowMs cfg) now z'
                              <= maxRequests cfg)), w')
    /\ healthy w'
    /\ zset ("sliding:" +:+ key) (redis w') = z'.
Proof.
  intros Hw z'.
  unfold SlidingWindowRateLimiter.isAllowed, try_catch, bind.
  match goal with |- context [command ?f w] =>
    destruct (command_healthy f w Hw) as (w1 & E & Hr & H1 & _); rewrite E
  end.
  match type of Hr with _ = (SlidingWindowRateLimiter.pipeline ?k ?ws ?n ?m ?t ?r).2 =>
    destruct (pipeline_spec k ws n m t r) as [Hcount Hz];
    destruct (SlidingWindowRateLimiter.pipeline k ws n m t r)
      as [[[[r0 r1] r2] r3] r'] eqn:Ep
  end.
  cbn [fst snd] in *. unfold ret.
  exists w1. split; [|split; [exact H1|]].
  - f_equal. f_equal. fold z' in Hcount.
    assert (Hc : (if bool_decide (r2 = 0) then 0 else r2) = r2).
    { destruct (bool_decide_reflect (r2 = 0)) as [->|]; reflexivity. }
    rewrite Hc, Hcount. reflexivity.
  - rewrite Hr. exact Hz.
Qed.

Lemma slid_recent W T now m z :
  all_within (T - W) T z -> now <= T ->
  slid W now m z = <[m := now]> z.
Proof.
  intros Hz Hnow. unfold slid. f_equal. apply map_filter_id.
  intros i s His. simpl. specialize (Hz i s His). lia.
Qed.


Lemma in_window_all W T z :
  all_within (T - W) T z -> in_window W T z = Z.of_nat (size z).
Proof.
  intros Hz. unfold in_window. f_equal. f_equal. apply map_filter_id.
  intros i s His. simpl. specialize (Hz i s His). lia.
Qed.

Lemma all_within_insert lo hi m s z :
  all_within lo hi z -> lo < s <= hi -> all_within lo hi (<[m := s]> z).
Proof.
  intros Hz Hs i x. destruct (decide (m = i)) as [->|Hne].
  - rewrite lookup_insert_eq. intros [= <-]. exact Hs.
  - rewrite lookup_insert_ne by exact Hne. apply Hz.
Qed.





(** ** Concurrent callers *)

Section ConcurrentCallers.
Import DistributedThrottler.

















End ConcurrentCallers.

(** * Further properties *)

(** ** Fixed window: safety, lock-out, retry *)

Lemma fixed_window_checks_cons cfg key c calls w :
  fixed_window_checks cfg key (c :: calls) w =
    ((RateLimiter.isAllowed cfg key c.1 c.2 w).1
       :: (fixed_window_checks cfg key calls
             (RateLimiter.isAllowed cfg key c.1 c.2 w).2).1,
     (fixed_window_checks cfg key calls
        (RateLimiter.isAllowed cfg key c.1 c.2 w).2).2).
Proof. unfold fixed_window_checks. cbn [map]. apply sequence_cons. Qed.

(** One check in window [n] on a store that answers, seen through the
    counter of that window. *)
Lemma fixed_window_step cfg key n weight now w :
  healthy w ->
  floor_div now (windowMs cfg) = n ->
  let k := RateLimiter.keyOfWindow cfg key n in
  let count := counter k (redis w) + weight in
  let out := RateLimiter.isAllowed cfg key weight now w in
  exists r,
    out.1 = Returned r
    /\ allowed r = bool_decide (count <= maxRequests cfg)
    /\ remaining r = Z.max 0 (maxRequests cfg - count)
    /\ healthy out.2
    /\ counter k (redis out.2) = count
    /\ (forall k', k' <> k ->
          strings (redis out.2) !! k' = strings (redis w) !! k').
Proof.
  intros Hw Hn k count out.
  destruct (RateLimiter_isAllowed_healthy cfg key weight now w Hw)
    as (w' & E & H' & S' & _).
  unfold RateLimiter.windowKey in E, S'. rewrite Hn in E, S'.
  fold k in E, S'. fold count in E, S'.
  subst out. rewrite E. cbn [fst snd]. eexists. split; [reflexivity|].
  cbn [allowed remaining]. repeat split; try assumption.
  - unfold counter. rewrite S', lookup_insert_eq. reflexivity.
  - intros k' Hne. rewrite S', lookup_insert_ne by congruence. reflexivity.
Qed.




(** X2. Once the counter of a window is above the ceiling, every further
    check of that window is rejected with nothing remaining, and each of
    them still adds its weight to the counter. *)
Theorem fixed_window_lockout cfg key n calls w :
  healthy w ->
  maxRequests cfg < counter (RateLimiter.keyOfWindow cfg key n) (redis w) ->
  Forall (λ c : Z * Z, 0 <= c.1 /\ floor_div c.2 (windowMs cfg) = n) calls ->
  Forall refused_answer (fixed_window_checks cfg key calls w).1
  /\ counter (RateLimiter.keyOfWindow cfg key n)
       (redis (fixed_window_checks cfg key calls w).2)
     = counter (RateLimiter.keyOfWindow cfg key n) (redis w)
       + total_weight (calls.*1).
Proof.
  revert w. induction calls as [|[weight now] calls IH]; intros w Hw Hover Hall.
  - cbn. split; [constructor | lia].
  - apply Forall_cons in Hall as [[Hweight Hn] Hall]. simpl in Hweight, Hn.
    rewrite fixed_window_checks_cons. cbn [fst snd].
    destruct (fixed_window_step cfg key n weight now w Hw Hn)
      as (r & E & Ha & Hr & H' & C' & _).
    destruct (IH _ H') as [Hrest Hcount]; [lia | exact Hall |].
    split.
    + constructor; [|exact Hrest]. exists r. split; [exact E|].
      rewrite Ha, Hr. split; [apply bool_decide_eq_false_2|]; lia.
    + rewrite Hcount, C'. cbn. unfold total_weight. lia.
Qed.

Lemma fixed_window_lockout_witness :
  Forall refused_answer
    (fixed_window_checks five_per_minute "k" [(1, 70); (0, 80)]
       (fixed_window_checks five_per_minute "k" [(6, 60)] fresh_world).2).1.
Proof.
  apply (fixed_window_lockout five_per_minute "k" 0 [(1, 70); (0, 80)]
           (fixed_window_checks five_per_minute "k" [(6, 60)] fresh_world).2).
  - constructor.
  - reflexivity.
  - repeat (constructor; [split; [discriminate | reflexivity] |]). constructor.
Defined.

Lemma floor_div_next_window now W :
  0 < W ->
  let n := floor_div now W in
  floor_div ((n + 1) * W) W = n + 1 /\ floor_div ((n + 1) * W - 1) W = n.
Proof.
  intros HW n. rewrite !floor_div_Zdiv. split.
  - apply Z.div_mul. lia.
  - symmetry. apply (Z.div_unique _ _ _ (W - 1)); lia.
Qed.

(** The counters after a check, whatever the store does: as before, or
    with the counter of the window of the check raised by the weight. *)
Lemma RateLimiter_isAllowed_strings cfg key weight now w :
  let k := RateLimiter.windowKey cfg key now in
  let w' := (RateLimiter.isAllowed cfg key weight now w).2 in
  strings (redis w') = strings (redis w)
  \/ strings (redis w') = <[k := counter k (redis w) + weight]> (strings (redis w)).
Proof.
  intros k w'. subst w'.
  unfold RateLimiter.isAllowed, try_catch, bind, command, ret, logger_error.
  fold k. destruct w as [r fs l]. cbn [faults redis log].
  assert (HE : forall secs r0, strings (EXPIRE k secs r0).2 = strings r0).
  { intros secs r0. unfold EXPIRE. destruct (key_exists k r0); reflexivity. }
  destruct fs as [|[] fs]; cbn [INCRBY fst snd redis faults log].
  - right. destruct (bool_decide _); cbn.
    + match goal with |- context [EXPIRE k ?s ?r0] =>
        pose proof (HE s r0) as H; destruct (EXPIRE k s r0) end.
      cbn in *. destruct (bool_decide _); cbn; exact H.
    + destruct (bool_decide _); reflexivity.
  - left. reflexivity.
  - right. destruct (bool_decide _); cbn.
    + destruct fs as [|[] fs]; cbn.
      * match goal with |- context [EXPIRE k ?s ?r0] =>
          pose proof (HE s r0) as H; destruct (EXPIRE k s r0) end.
        cbn in *. destruct (bool_decide _); cbn; exact H.
      * reflexivity.
      * match goal with |- context [EXPIRE k ?s ?r0] =>
          pose proof (HE s r0) as H; destruct (EXPIRE k s r0) end.
        cbn in *. destruct (bool_decide _); cbn; exact H.
    + destruct (bool_decide _); reflexivity.
Qed.

Lemma keyOfWindow_inj cfg key n m :
  RateLimiter.keyOfWindow cfg key n = RateLimiter.keyOfWindow cfg key m -> n = m.
Proof.
  unfold RateLimiter.keyOfWindow. intros H.
  apply (inj (String.append _)) in H.
  apply (inj (String.append _)) in H.
  apply (inj pretty) in H. exact H.
Qed.

(** X3. A check never touches the counter of another window of its key:
    each window of a key has a counter of its own, whatever the store
    does. *)
Theorem windows_are_separate cfg key weight now w m :
  m <> floor_div now (windowMs cfg) ->
  strings (redis (RateLimiter.isAllowed cfg key weight now w).2)
    !! RateLimiter.keyOfWindow cfg key m
  = strings (redis w) !! RateLimiter.keyOfWindow cfg key m.
Proof.
  intros Hm.
  destruct (RateLimiter_isAllowed_strings cfg key weight now w) as [E|E];
    rewrite E; [reflexivity|].
  apply lookup_insert_ne. unfold RateLimiter.windowKey. intros H.
  apply keyOfWindow_inj in H. congruence.
Qed.

Lemma windows_are_separate_witness :
  strings (redis (RateLimiter.isAllowed five_per_minute "k" 1 60000
                    (fixed_window_checks five_per_minute "k" [(6, 0)]
                       fresh_world).2).2)
    !! RateLimiter.keyOfWindow five_per_minute "k" 0
  = strings (redis (fixed_window_checks five_per_minute "k" [(6, 0)]
                      fresh_world).2)
      !! RateLimiter.keyOfWindow five_per_minute "k" 0.
Proof.
  apply (windows_are_separate five_per_minute "k" 1 60000
           (fixed_window_checks five_per_minute "k" [(6, 0)] fresh_world).2 0).
  discriminate.
Defined.

(** X4. The [retryAfter] of a rejected check is exactly the time left in
    its window: retried that much later the check is in the next window
    (one millisecond earlier it is not), and if that window has counted
    nothing and the weight is within the ceiling, the retry is allowed. *)
Theorem retry_after_reaches_next_window cfg key weight now w :
  0 < windowMs cfg ->
  healthy w ->
  maxRequests cfg
    < counter (RateLimiter.windowKey cfg key now) (redis w) + weight ->
  let n := floor_div now (windowMs cfg) in
  let out := RateLimiter.isAllowed cfg key weight now w in
  exists r ra,
    out.1 = Returned r /\ allowed r = false /\ retryAfter r = Some ra
    /\ floor_div (now + ra) (windowMs cfg) = n + 1
    /\ floor_div (now + ra - 1) (windowMs cfg) = n
    /\ (forall weight',
          strings (redis w) !! RateLimiter.keyOfWindow cfg key (n + 1) = None ->
          weight' <= maxRequests cfg ->
          exists r',
            (RateLimiter.isAllowed cfg key weight' (now + ra) out.2).1
              = Returned r'
            /\ allowed r' = true).
Proof.
  intros HW Hw Hover n out.
  destruct (RateLimiter_isAllowed_healthy cfg key weight now w Hw)
    as (w' & E & H' & S' & _).
  rewrite bool_decide_eq_false_2 in E by lia. fold n in E.
  destruct (floor_div_next_window now (windowMs cfg) HW) as [Hnext Hlast].
  fold n in Hnext, Hlast.
  subst out. rewrite E. cbn [fst snd].
  eexists _, _. split; [reflexivity|]. cbn [allowed retryAfter].
  split; [reflexivity|]. split; [reflexivity|].
  replace (now + ((n + 1) * windowMs cfg - now)) with ((n + 1) * windowMs cfg)
    by lia.
  replace (now + ((n + 1) * windowMs cfg - now) - 1)
    with ((n + 1) * windowMs cfg - 1) by lia.
  split; [exact Hnext|]. split; [exact Hlast|].
  intros weight' Hfresh Hweight.
  destruct (fixed_window_step cfg key (n + 1) weight' ((n + 1) * windowMs cfg)
              w' H' Hnext) as (r' & E' & Ha' & _).
  exists r'. split; [exact E'|]. rewrite Ha'. apply bool_decide_eq_true_2.
  assert (Hc : counter (RateLimiter.keyOfWindow cfg key (n + 1)) (redis w') = 0).
  { unfold counter. rewrite S', lookup_insert_ne, Hfresh; [reflexivity|].
    unfold RateLimiter.windowKey. fold n. intros H.
    apply keyOfWindow_inj in H. lia. }
  rewrite Hc. lia.
Qed.

Lemma retry_after_reaches_next_window_witness :
  exists r ra,
    (RateLimiter.isAllowed five_per_minute "k" 6 100 fresh_world).1 = Returned r
    /\ allowed r = false /\ retryAfter r = Some ra
    /\ floor_div (100 + ra) 60000 = 1.
Proof.
  destruct (retry_after_reaches_next_window five_per_minute "k" 6 100 fresh_world)
    as (r & ra & E & Ha & Hra & Hn & _).
  - reflexivity.
  - constructor.
  - reflexivity.
  - exists r, ra. repeat split; assumption.
Defined.

(** ** The middleware of the fixed-window limiter *)




Lemma ceil_div_above a b n :
  0 < b -> n * b < a -> n < ceil_div a b.
Proof.
  intros Hb Hlt. unfold ceil_div.
  rewrite Zlt_Qlt.
  apply Qlt_le_trans with (inject_Z a / inject_Z b)%Q; [|apply Qle_ceiling].
  apply Qlt_shift_div_l.
  - change 0%Q with (inject_Z 0). rewrite <- Zlt_Qlt. exact Hb.
  - rewrite <- inject_Z_mult, <- Zlt_Qlt. exact Hlt.
Qed.

(** X7. Under the [upload] policy a request of more than 10 MiB is
    rejected even when nothing was uploaded in the window: its weight,
    one per started mebibyte, alone exceeds the ceiling of 10. *)
Theorem upload_over_ten_mebibytes_rejected req now w :
  healthy w ->
  10 * (1024 * 1024) < req_content_length req ->
  0 <= counter (RateLimiter.windowKey upload
                  (RateLimiter.defaultKeyGenerator req) now) (redis w) ->
  exists a, (RateLimiter.middleware upload req now w).1 = Returned a
            /\ is_rejected a.
Proof.
  intros Hw Hsize Hcount.
  pose proof (ceil_div_above (req_content_length req) (1024 * 1024) 10
                ltac:(reflexivity) Hsize) as Hweight.
  unfold RateLimiter.middleware, bind.
  change (skip upload) with (@None (Request -> bool)).
  change (keyGenerator upload) with (Some RateLimiter.defaultKeyGenerator).
  change (requestWeightFn upload)
    with (Some (fun req => ceil_div (req_content_length req) (1024 * 1024))).
  cbn [default fmap option_fmap option_map].
  destruct (RateLimiter_isAllowed_healthy upload
              (RateLimiter.defaultKeyGenerator req)
              (ceil_div (req_content_length req) (1024 * 1024)) now w Hw)
    as (w1 & E & _).
  rewrite bool_decide_eq_false_2 in E
    by (change (maxRequests upload) with 10; lia).
  rewrite E.
  cbn [allowed negb ret fst]. eexists. split; [reflexivity | exact I].
Qed.

Lemma upload_over_ten_mebibytes_rejected_witness :
  exists a,
    (RateLimiter.middleware upload
       (mkRequest (Some "10.0.0.1") None None "POST" "/files" 10485761)
       0 fresh_world).1 = Returned a
    /\ is_rejected a.
Proof.
  apply (upload_over_ten_mebibytes_rejected
           (mkRequest (Some "10.0.0.1") None None "POST" "/files" 10485761)
           0 fresh_world).
  - constructor.
  - reflexivity.
  - discriminate.
Defined.

(** ** Token bucket: safety, retry, isolation *)

Section ThrottlerFurther.
Import DistributedThrottler.












Lemma refilled_at_most_burst cfg key cost now w :
  healthy w ->
  (burstLimit cfg < cost)%Q ->
  exists r,
    (isAllowed cfg key cost now w).1 = Returned r /\ allowed r = false
    /\ healthy (isAllowed cfg key cost now w).2.
Proof.
  intros Hw Hover.
  destruct (throttle_check_healthy cfg key cost now w Hw)
    as (r & w' & E & Hw' & _ & _ & Hrefuse).
  rewrite E. cbn [fst snd]. exists r. split; [reflexivity|].
  split; [|exact Hw'].
  destruct Hrefuse as [-> _]; [|reflexivity].
  eapply Qle_lt_trans; [apply Q.le_min_l | exact Hover].
Qed.



Lemma redisKey_inj cfg key key' :
  redisKey cfg key = redisKey cfg key' -> key = key'.
Proof.
  unfold redisKey. intros H.
  apply (inj (String.append _)) in H.
  apply (inj (String.append _)) in H. exact H.
Qed.

(** X11. A check of one key never changes the bucket of another key of
    the same throttler, whatever the store does. *)
Theorem throttle_keys_are_separate cfg key key' cost now w :
  key' <> key ->
  stored_tokens cfg key' (redis (isAllowed cfg key cost now w).2)
    = stored_tokens cfg key' (redis w)
  /\ stored_last_refill cfg key' (redis (isAllowed cfg key cost now w).2)
     = stored_last_refill cfg key' (redis w).
Proof.
  intros Hne.
  assert (Hk : redisKey cfg key <> redisKey cfg key').
  { intros H. apply redisKey_inj in H. congruence. }
  destruct (isAllowed_store cfg key cost now w) as [E|E]; simpl in E;
    unfold stored_tokens, stored_last_refill; rewrite E;
    [split; reflexivity|].
  unfold luaScript.
  destruct (Qleb _ _); cbn [snd]; unfold EXPIRE, HMSET2;
    destruct (key_exists _ _); cbn [snd hashes];
    rewrite lookup_insert_ne by exact Hk; split; reflexivity.
Qed.

Lemma throttle_keys_are_separate_witness :
  stored_tokens heavy "a"
    (redis (isAllowed heavy "b" 5 10
              (throttle_checks heavy "a" [(1%Q, 0)] fresh_world).2).2)
  = stored_tokens heavy "a"
      (redis (throttle_checks heavy "a" [(1%Q, 0)] fresh_world).2).
Proof.
  apply (throttle_keys_are_separate heavy "b" "a" 5 10
           (throttle_checks heavy "a" [(1%Q, 0)] fresh_world).2).
  discriminate.
Defined.

(** The middleware is the check of the key and the cost it derives from
    the request. *)
Lemma throttler_middleware_check cfg req now w :
  let out := isAllowed cfg (generateKey req) (calculateCost req) now w in
  (throttler_middleware cfg req now w).2 = out.2
  /\ forall r,
       out.1 = Returned r ->
       (throttler_middleware cfg req now w).1 =
         Returned
           (if allowed r
            then Passed (mkThrottleHeaders (burstLimit cfg)
                           (Qfloor (tokensRemaining r)) None)
            else Slowed (mkThrottleHeaders (burstLimit cfg)
                           (Qfloor (tokensRemaining r))
                           ((fun ra => Qceiling (ra / 1000)) <$> retryAfter r))
                        r).
Proof.
  intros out. subst out. unfold throttler_middleware, bind.
  destruct (isAllowed cfg (generateKey req) (calculateCost req) now w)
    as [[r|e] w'] eqn:E; cbn [fst snd].
  - split; [destruct (allowed r); reflexivity|].
    intros r0 [= <-]. destruct (allowed r); reflexivity.
  - split; [reflexivity|]. intros r0 H. discriminate H.
Qed.




(** X13. The [heavy] throttler answers every upload with 429 when the
    store answers: an upload costs 10 tokens and the bucket never holds
    more than 5. *)
Theorem heavy_never_admits_uploads req now w :
  healthy w ->
  req_method req = "POST" ->
  includes "/upload" (req_path req) = true ->
  exists h r, (throttler_middleware heavy req now w).1 = Returned (Slowed h r).
Proof.
  intros Hw Hmethod Hpath.
  assert (Hcost : calculateCost req = 10%Q).
  { unfold calculateCost. rewrite Hmethod, Hpath. reflexivity. }
  destruct (refilled_at_most_burst heavy (generateKey req) (calculateCost req)
              now w Hw) as (r & E & Ha & _).
  { rewrite Hcost. reflexivity. }
  destruct (throttler_middleware_check heavy req now w) as [_ E1].
  rewrite (E1 r E), Ha. eexists _, _. reflexivity.
Qed.

Lemma heavy_never_admits_uploads_witness :
  exists h r,
    (throttler_middleware heavy
       (mkRequest (Some "10.0.0.1") None None "POST" "/api/upload/avatar" 0)
       0 fresh_world).1 = Returned (Slowed h r).
Proof.
  apply (heavy_never_admits_uploads
           (mkRequest (Some "10.0.0.1") None None "POST" "/api/upload/avatar" 0)
           0 fresh_world).
  - constructor.
  - reflexivity.
  - reflexivity.
Defined.


End ThrottlerFurther.

(** ** The in-process bucket *)








(** X16. The level of the in-process bucket grows with the time of
    reading and never passes the capacity. *)
Theorem local_level_grows b t1 t2 :
  (0 <= TokenBucket.refillRate b)%Q ->
  t1 <= t2 ->
  ((TokenBucket.getTokens t1 b).1 <= (TokenBucket.getTokens t2 b).1)%Q
  /\ ((TokenBucket.getTokens t2 b).1 <= TokenBucket.capacity b)%Q.
Proof.
  intros Hr Ht. unfold TokenBucket.getTokens, TokenBucket.refill.
  cbn [fst TokenBucket.tokens]. split; [|apply Q.le_min_l].
  apply Q.min_le_compat_l. apply Qplus_le_r.
  apply Qmult_le_compat_r; [|exact Hr].
  apply Qmult_le_compat_r; [|discriminate].
  rewrite <- Zle_Qle. lia.
Qed.

Lemma local_level_grows_witness :
  ((TokenBucket.getTokens 1000
      (TokenBucket.consume 10 0 (TokenBucket.new 10 (10 / 60) 0)).2).1
   <= (TokenBucket.getTokens 2000
         (TokenBucket.consume 10 0 (TokenBucket.new 10 (10 / 60) 0)).2).1)%Q.
Proof.
  apply (local_level_grows
           (TokenBucket.consume 10 0 (TokenBucket.new 10 (10 / 60) 0)).2
           1000 2000).
  - discriminate.
  - discriminate.
Defined.

(** ** Adaptive limiter: histories, range, reaction *)

Lemma record_all_cons key rt status now outcomes self :
  record_all key ((rt, status, now) :: outcomes) self
  = record_all key outcomes
      (AdaptiveRateLimiter.recordMetric key rt status now self).
Proof. reflexivity. Qed.

Lemma record_all_other key outcomes :
  forall self k,
    k <> key ->
    AdaptiveRateLimiter.performanceMetrics (record_all key outcomes self) !! k
    = AdaptiveRateLimiter.performanceMetrics self !! k.
Proof.
  induction outcomes as [|[[rt status] now] outcomes IH]; intros self k Hk;
    [reflexivity|].
  rewrite record_all_cons.
  rewrite IH by exact Hk. unfold AdaptiveRateLimiter.recordMetric. simpl.
  apply lookup_insert_ne. congruence.
Qed.

Lemma record_all_from key outcomes :
  forall self m0,
    AdaptiveRateLimiter.performanceMetrics self !! key = Some m0 ->
    exists m,
      AdaptiveRateLimiter.performanceMetrics (record_all key outcomes self)
        !! key = Some m
      /\ total m = total m0 + Z.of_nat (length outcomes)
      /\ errors m = errors m0 + count_errors outcomes
      /\ (totalResponseTime m
          == totalResponseTime m0 + total_time outcomes)%Q.
Proof.
  induction outcomes as [|[[rt status] now] outcomes IH]; intros self m0 Hm0.
  - exists m0. split; [exact Hm0|]. unfold count_errors, total_time.
    cbn [length filter list_filter foldr]. split; [lia|]. split; [cbn; lia|].
    symmetry. apply Qplus_0_r.
  - rewrite record_all_cons.
    edestruct (IH (AdaptiveRateLimiter.recordMetric key rt status now self))
      as (m & Hm & Ht & He & Hrt).
    { unfold AdaptiveRateLimiter.recordMetric. simpl. rewrite Hm0.
      apply lookup_insert_eq. }
    exists m. split; [exact Hm|].
    cbv [default from_option id] in Ht, He, Hrt.
    cbn [total errors totalResponseTime] in Ht, He, Hrt.
    rewrite Ht, He, Hrt. cbn [length total_time foldr fst snd].
    fold (total_time outcomes).
    unfold count_errors. rewrite filter_cons. cbn [fst snd].
    destruct (decide (status >= 400)) as [Hs|Hs].
    + rewrite bool_decide_eq_true_2 by exact Hs. cbn [length].
      repeat split; try lia. ring.
    + rewrite bool_decide_eq_false_2 by exact Hs.
      repeat split; try lia. ring.
Qed.

(** X17. The profile of a key is the tally of what was recorded for it:
    after any outcomes recorded for a key without a profile, it counts
    every outcome, counts as errors those with a status of 400 or more,
    and sums the response times; so its errors never exceed its total,
    and the total is positive once anything was recorded. *)
Theorem recordMetric_tallies key outcomes self :
  AdaptiveRateLimiter.performanceMetrics self !! key = None ->
  outcomes <> [] ->
  exists m,
    AdaptiveRateLimiter.performanceMetrics (record_all key outcomes self)
      !! key = Some m
    /\ total m = Z.of_nat (length outcomes)
    /\ errors m = count_errors outcomes
    /\ (totalResponseTime m == total_time outcomes)%Q
    /\ 0 <= errors m <= total m
    /\ 0 < total m.
Proof.
  intros Hnone Hne. destruct outcomes as [|[[rt status] now] outcomes];
    [contradiction|].
  rewrite record_all_cons.
  edestruct (record_all_from key outcomes
               (AdaptiveRateLimiter.recordMetric key rt status now self))
    as (m & Hm & Ht & He & Hrt).
  { unfold AdaptiveRateLimiter.recordMetric. simpl. rewrite Hnone.
    apply lookup_insert_eq. }
  cbv [default from_option id] in Ht, He, Hrt.
  cbn [total errors totalResponseTime] in Ht, He, Hrt.
  exists m. split; [exact Hm|].
  assert (Hlen : Z.of_nat (length ((rt, status, now) :: outcomes))
                 = 0 + 1 + Z.of_nat (length outcomes)) by (cbn [length]; lia).
  assert (Herr : count_errors ((rt, status, now) :: outcomes)
                 = (if bool_decide (status >= 400) then 0 + 1 else 0)
                   + count_errors outcomes).
  { unfold count_errors. rewrite filter_cons. cbn [fst snd].
    destruct (decide (status >= 400)) as [Hs|Hs].
    - rewrite bool_decide_eq_true_2 by exact Hs. cbn [length]. lia.
    - rewrite bool_decide_eq_false_2 by exact Hs. lia. }
  assert (Hbound : 0 <= count_errors outcomes <= Z.of_nat (length outcomes)).
  { unfold count_errors. split; [lia|].
    apply Nat2Z.inj_le. apply length_filter. }
  rewrite Hlen, Herr, Ht, He.
  split; [reflexivity|]. split; [reflexivity|].
  split; [rewrite Hrt; unfold total_time; cbn [foldr fst snd]; ring|].
  destruct (bool_decide (status >= 400)); lia.
Qed.

Lemma recordMetric_tallies_witness :
  exists m,
    AdaptiveRateLimiter.performanceMetrics failing_caller !! "k" = Some m
    /\ total m = 2 /\ errors m = 1.
Proof.
  destruct (recordMetric_tallies "k" [(20%Q, 200, 1); (20%Q, 500, 2)]
              (AdaptiveRateLimiter.new base_five))
    as (m & Hm & Ht & He & _).
  - reflexivity.
  - discriminate.
  - exists m. split; [exact Hm|]. split; assumption.
Defined.

Lemma scaled_ceilings b :
  0 <= b ->
  Qfloor (inject_Z b * (1 # 2)) <= Qfloor (inject_Z b * (75 # 100))
  /\ Qfloor (inject_Z b * (75 # 100)) <= b
  /\ b <= Qfloor (inject_Z b * (15 # 10)).
Proof.
  intros Hb.
  assert (Hq : (0 <= inject_Z b)%Q)
    by (change 0%Q with (inject_Z 0); rewrite <- Zle_Qle; exact Hb).
  set (q := inject_Z b) in *.
  assert (Hfloor : Qfloor q = b) by apply Qfloor_Z.
  clearbody q. rewrite <- Hfloor.
  repeat split; apply Qfloor_resp_le; lra.
Qed.

(** X18. Whatever was recorded for a key, its dynamic ceiling stays
    between half and one and a half times a non-negative base ceiling
    (both rounded down). *)
Theorem dynamic_limit_range self key :
  0 <= maxRequests (AdaptiveRateLimiter.baseConfig self) ->
  Qfloor (inject_Z (maxRequests (AdaptiveRateLimiter.baseConfig self)) * (1 # 2))
    <= AdaptiveRateLimiter.getDynamicLimit self key
    <= Qfloor (inject_Z (maxRequests (AdaptiveRateLimiter.baseConfig self))
               * (15 # 10)).
Proof.
  intros Hb. destruct (scaled_ceilings _ Hb) as (H1 & H2 & H3).
  unfold AdaptiveRateLimiter.getDynamicLimit.
  destruct (AdaptiveRateLimiter.performanceMetrics self !! key) as [m|];
    [|lia].
  cbv zeta.
  set (e := (inject_Z (errors m) / inject_Z (total m))%Q).
  set (a := (totalResponseTime m / inject_Z (total m))%Q).
  destruct (Qltb (1 # 10) e) eqn:Hhigh.
  - assert (Hlow : Qltb e (1 # 100) = false).
    { apply Qltb_true in Hhigh. apply not_true_iff_false.
      rewrite Qltb_true. lra. }
    rewrite Hlow. cbn [andb]. lia.
  - destruct (Qltb (5 # 100) e) eqn:Hmid.
    + assert (Hlow : Qltb e (1 # 100) = false).
      { apply Qltb_true in Hmid. apply not_true_iff_false.
        rewrite Qltb_true. lra. }
      rewrite Hlow. cbn [andb]. lia.
    + destruct (Qltb e (1 # 100) && Qltb a 100); lia.
Qed.

Lemma dynamic_limit_range_witness :
  2 <= AdaptiveRateLimiter.getDynamicLimit failing_caller "k" <= 7.
Proof.
  apply (dynamic_limit_range failing_caller "k"). discriminate.
Defined.

(** X19. One outcome is enough to move the ceiling of a key without a
    profile: a single answer with a status of 400 or more halves it, a
    single answer below 400 that took less than 100 ms raises it by half,
    any other single answer leaves it at the base. *)
Theorem one_outcome_moves_the_ceiling self key responseTime statusCode now :
  AdaptiveRateLimiter.performanceMetrics self !! key = None ->
  let base := maxRequests (AdaptiveRateLimiter.baseConfig self) in
  AdaptiveRateLimiter.getDynamicLimit
    (AdaptiveRateLimiter.recordMetric key responseTime statusCode now self) key
  = if bool_decide (statusCode >= 400) then Qfloor (inject_Z base * (1 # 2))
    else if Qltb responseTime 100 then Qfloor (inject_Z base * (15 # 10))
    else base.
Proof.
  intros Hnone base.
  unfold AdaptiveRateLimiter.getDynamicLimit, AdaptiveRateLimiter.recordMetric.
  cbn [AdaptiveRateLimiter.performanceMetrics AdaptiveRateLimiter.baseConfig].
  rewrite lookup_insert_eq, Hnone. cbv [default from_option id].
  cbn [total errors totalResponseTime]. fold base.
  destruct (bool_decide (statusCode >= 400)).
  - reflexivity.
  - change (Qltb (1 # 10) (inject_Z 0 / inject_Z (0 + 1))) with false.
    change (Qltb (5 # 100) (inject_Z 0 / inject_Z (0 + 1))) with false.
    change (Qltb (inject_Z 0 / inject_Z (0 + 1)) (1 # 100)) with true.
    cbn [andb].
    assert (E : Qltb ((0 + responseTime) / inject_Z (0 + 1)) 100
                = Qltb responseTime 100).
    { assert (Eq : ((0 + responseTime) / inject_Z (0 + 1) == responseTime)%Q)
        by (change (inject_Z (0 + 1)) with 1%Q; field).
      destruct (Qltb responseTime 100) eqn:H.
      - apply Qltb_true. apply Qltb_true in H. rewrite Eq. exact H.
      - apply not_true_iff_false. rewrite Qltb_true.
        apply not_true_iff_false in H. rewrite Qltb_true in H.
        rewrite Eq. exact H. }
    rewrite E. reflexivity.
Qed.

Lemma one_outcome_moves_the_ceiling_witness :
  AdaptiveRateLimiter.getDynamicLimit
    (AdaptiveRateLimiter.recordMetric "k" 20 500 1
       (AdaptiveRateLimiter.new base_five)) "k" = 2.
Proof.
  apply (one_outcome_moves_the_ceiling (AdaptiveRateLimiter.new base_five)
           "k" 20 500 1).
  reflexivity.
Defined.



(** ** Sliding window: the run of answers, repeated tags *)

Lemma sliding_checks_cons cfg key c calls w :
  sliding_checks cfg key (c :: calls) w =
    ((SlidingWindowRateLimiter.isAllowed cfg key c.1 c.2 w).1
       :: (sliding_checks cfg key calls
             (SlidingWindowRateLimiter.isAllowed cfg key c.1 c.2 w).2).1,
     (sliding_checks cfg key calls
        (SlidingWindowRateLimiter.isAllowed cfg key c.1 c.2 w).2).2).
Proof. unfold sliding_checks. cbn [map]. apply sequence_cons. Qed.

Lemma all_within_weaken lo lo' hi hi' z :
  all_within lo hi z -> lo' <= lo -> hi <= hi' -> all_within lo' hi' z.
Proof. intros Hz Hlo Hhi m s Hm. specialize (Hz m s Hm). lia. Qed.

Lemma sliding_answers_from cfg key T calls :
  forall w t,
    healthy w ->
    all_within (T - windowMs cfg) t (zset ("sliding:" +:+ key) (redis w)) ->
    Sorted Z.le (t :: calls.*1) ->
    Forall (λ c : Z * N, T - windowMs cfg < c.1 <= T) calls ->
    NoDup calls ->
    (forall c, c ∈ calls -> zset ("sliding:" +:+ key) (redis w) !! c = None) ->
    (sliding_checks cfg key calls w).1
    = sliding_answers (maxRequests cfg)
        (size (zset ("sliding:" +:+ key) (redis w))) calls.
Proof.
  induction calls as [|[now nonce] calls IH];
    intros w t Hw Hz Hsorted Hin Hnd Hfresh; [reflexivity|].
  change (((now, nonce) :: calls).*1) with (now :: calls.*1) in Hsorted.
  apply Sorted_inv in Hsorted as [Hsorted Hhd]. apply HdRel_inv in Hhd.
  apply Forall_cons in Hin as [Hnow Hin]. simpl in Hnow.
  apply NoDup_cons in Hnd as [Hnotin Hnd].
  rewrite sliding_checks_cons. cbn [fst snd sliding_answers].
  destruct (SlidingWindow_isAllowed_healthy cfg key now nonce w Hw)
    as (w1 & E & H1 & Z1).
  set (z := zset ("sliding:" +:+ key) (redis w)) in *.
  assert (Hnew : z !! (now, nonce) = None) by (apply Hfresh; left).
  rewrite (slid_recent _ T) in E, Z1
    by first [lia | eapply all_within_weaken; [exact Hz | lia | lia]].
  assert (Hz1 : all_within (T - windowMs cfg) now (<[(now, nonce) := now]> z)).
  { apply all_within_insert; [|lia].
    eapply all_within_weaken; [exact Hz | lia | lia]. }
  rewrite (in_window_all _ now) in E
    by (eapply all_within_weaken; [exact Hz1 | lia | lia]).
  rewrite map_size_insert_None in E by exact Hnew.
  rewrite E. cbn [fst snd]. f_equal.
  rewrite (IH w1 now H1); [| rewrite Z1; exact Hz1 | exact Hsorted | exact Hin
                           | exact Hnd |].
  - rewrite Z1, map_size_insert_None by exact Hnew. reflexivity.
  - intros c Hc. rewrite Z1, lookup_insert_ne.
    + apply Hfresh. right. exact Hc.
    + intros <-. contradiction.
Qed.

(** X21. Requests with distinct tags and clock readings that never step
    back, all within less than one window length of each other, on a log
    never used before and a store that answers: the first [ceiling] of
    them are allowed and every later one is rejected. *)
Theorem sliding_admits_first_ceiling cfg key T calls w :
  healthy w ->
  zsets (redis w) !! ("sliding:" +:+ key) = None ->
  Sorted Z.le (calls.*1) ->
  Forall (λ c : Z * N, T - windowMs cfg < c.1 <= T) calls ->
  NoDup calls ->
  (sliding_checks cfg key calls w).1 = sliding_answers (maxRequests cfg) 0 calls.
Proof.
  intros Hw Hfresh Hsorted Hin Hnd.
  assert (Hempty : zset ("sliding:" +:+ key) (redis w) = ∅).
  { unfold zset. rewrite Hfresh. reflexivity. }
  destruct calls as [|[now nonce] calls]; [reflexivity|].
  rewrite (sliding_answers_from cfg key T _ w now Hw); try assumption.
  - rewrite Hempty, map_size_empty. reflexivity.
  - rewrite Hempty. intros m s Hm. rewrite lookup_empty in Hm. discriminate.
  - constructor; [exact Hsorted|]. constructor. simpl. lia.
  - intros c _. rewrite Hempty. apply lookup_empty.
Qed.

Lemma sliding_admits_first_ceiling_witness :
  (sliding_checks one_per_window "k" [(0, 7%N); (500, 8%N); (999, 9%N)]
     fresh_world).1
  = [Returned true; Returned false; Returned false].
Proof.
  apply (sliding_admits_first_ceiling one_per_window "k" 999
           [(0, 7%N); (500, 8%N); (999, 9%N)] fresh_world).
  - constructor.
  - reflexivity.
  - repeat constructor; discriminate.
  - repeat (constructor; [split; [reflexivity | discriminate] |]). constructor.
  - apply (bool_decide_unpack _). vm_compute. exact I.
Defined.

Lemma slid_twice W now m z :
  0 < W -> slid W now m (slid W now m z) = slid W now m z.
Proof.
  intros HW. unfold slid.
  rewrite map_filter_insert_True by (simpl; lia).
  rewrite (map_filter_id _ (filter _ z)), insert_insert_eq; [reflexivity|].
  intros i s His. apply map_lookup_filter_Some in His as [_ His]. exact His.
Qed.

(** X22. A request whose timestamp and random tag equal those of a request
    just logged is not counted: it gets the answer that request got and
    leaves the log as it was. *)
Theorem sliding_repeated_tag_not_counted cfg key now nonce w :
  0 < windowMs cfg ->
  healthy w ->
  let first := SlidingWindowRateLimiter.isAllowed cfg key now nonce w in
  let second := SlidingWindowRateLimiter.isAllowed cfg key now nonce first.2 in
  second.1 = first.1
  /\ zset ("sliding:" +:+ key) (redis second.2)
     = zset ("sliding:" +:+ key) (redis first.2).
Proof.
  intros HW Hw first second. subst first second.
  destruct (SlidingWindow_isAllowed_healthy cfg key now nonce w Hw)
    as (w1 & E1 & H1 & Z1).
  rewrite E1. cbn [fst snd].
  destruct (SlidingWindow_isAllowed_healthy cfg key now nonce w1 H1)
    as (w2 & E2 & _ & Z2).
  rewrite Z1, slid_twice in E2, Z2 by exact HW.
  rewrite E2. cbn [fst snd]. rewrite Z2, Z1. split; reflexivity.
Qed.

Lemma sliding_repeated_tag_not_counted_witness :
  (SlidingWindowRateLimiter.isAllowed one_per_window "k" 0 7
     (SlidingWindowRateLimiter.isAllowed one_per_window "k" 0 7 fresh_world).2).1
  = (SlidingWindowRateLimiter.isAllowed one_per_window "k" 0 7 fresh_world).1.
Proof.
  apply (sliding_repeated_tag_not_counted one_per_window "k" 0 7%N fresh_world).
  - reflexivity.
  - constructor.
Defined.

(** ** Sizing helpers of the optimizer *)




(** X24. For a requested page size of at least 1, the page returned is at
    least 1, the page size is at least 1 and at most the size requested
    (at most 100 above 10000 items, at most 50 below 100 items), the
    offset is the whole pages before and not negative, and the next page
    is prefetched exactly when items remain after this page and the page
    is one of the first five. *)
Theorem pagination_bounds totalItems requestedPage requestedPageSize :
  1 <= requestedPageSize ->
  let p := PerformanceOptimizer.optimizePagination totalItems requestedPage
             requestedPageSize in
  1 <= PerformanceOptimizer.page p
  /\ requestedPage <= PerformanceOptimizer.page p
  /\ 1 <= PerformanceOptimizer.pageSize p <= requestedPageSize
  /\ (10000 < totalItems -> PerformanceOptimizer.pageSize p <= 100)
  /\ (totalItems < 100 -> PerformanceOptimizer.pageSize p <= 50)
  /\ PerformanceOptimizer.offset p
     = (PerformanceOptimizer.page p - 1) * PerformanceOptimizer.pageSize p
  /\ 0 <= PerformanceOptimizer.offset p
  /\ (PerformanceOptimizer.prefetchNext p = true <->
      PerformanceOptimizer.offset p + PerformanceOptimizer.pageSize p
        < totalItems
      /\ PerformanceOptimizer.page p <= 5).
Proof.
  intros Hsize p. subst p. unfold PerformanceOptimizer.optimizePagination.
  cbn [PerformanceOptimizer.page PerformanceOptimizer.pageSize
       PerformanceOptimizer.offset PerformanceOptimizer.prefetchNext].
  set (size := if bool_decide (totalItems > 10000)
               then requestedPageSize `min` 100
               else if bool_decide (totalItems < 100)
                    then requestedPageSize `min` 50
                    else requestedPageSize).
  assert (Hs : 1 <= size <= requestedPageSize
               /\ (10000 < totalItems -> size <= 100)
               /\ (totalItems < 100 -> size <= 50)).
  { subst size.
    destruct (bool_decide_reflect (totalItems > 10000));
      [|destruct (bool_decide_reflect (totalItems < 100))]; lia. }
  destruct Hs as (Hs1 & Hs2 & Hs3).
  split; [lia|]. split; [lia|]. split; [exact Hs1|]. split; [exact Hs2|].
  split; [exact Hs3|]. split; [reflexivity|]. split; [nia|].
  rewrite andb_true_iff, negb_true_iff, bool_decide_eq_false,
    bool_decide_eq_true. lia.
Qed.

Lemma pagination_bounds_witness :
  PerformanceOptimizer.pageSize
    (PerformanceOptimizer.optimizePagination 20000 0 500) <= 100.
Proof.
  destruct (pagination_bounds 20000 0 500) as (_ & _ & _ & H & _).
  - discriminate.
  - apply H. reflexivity.
Defined.

(** ** The edge of a window, and a policy without key generator *)

(** X25. Twice the ceiling can pass within two milliseconds: on fresh
    counters and a store that answers, a check of the whole ceiling in
    the last millisecond of a window and another in the first millisecond
    of the next are both allowed. *)
Theorem fixed_window_boundary_burst cfg key n w :
  0 < windowMs cfg ->
  0 <= maxRequests cfg ->
  healthy w ->
  strings (redis w) !! RateLimiter.keyOfWindow cfg key n = None ->
  strings (redis w) !! RateLimiter.keyOfWindow cfg key (n + 1) = None ->
  let edge := (n + 1) * windowMs cfg in
  let before := RateLimiter.isAllowed cfg key (maxRequests cfg) (edge - 1) w in
  let after := RateLimiter.isAllowed cfg key (maxRequests cfg) edge before.2 in
  (exists r, before.1 = Returned r /\ allowed r = true)
  /\ (exists r, after.1 = Returned r /\ allowed r = true).
Proof.
  intros HW HC Hw Hn Hn1 edge before after. subst before after.
  assert (Hlast : floor_div (edge - 1) (windowMs cfg) = n).
  { rewrite floor_div_Zdiv. symmetry.
    apply (Z.div_unique _ _ _ (windowMs cfg - 1)); subst edge; lia. }
  assert (Hfirst : floor_div edge (windowMs cfg) = n + 1).
  { rewrite floor_div_Zdiv. subst edge. apply Z.div_mul. lia. }
  destruct (fixed_window_step cfg key n (maxRequests cfg) (edge - 1) w Hw Hlast)
    as (r1 & E1 & Ha1 & _ & Hw1 & _ & Hframe).
  split.
  - exists r1. split; [exact E1|]. rewrite Ha1. apply bool_decide_eq_true_2.
    unfold counter. rewrite Hn. simpl. lia.
  - destruct (fixed_window_step cfg key (n + 1) (maxRequests cfg) edge _ Hw1
                Hfirst) as (r2 & E2 & Ha2 & _).
    exists r2. split; [exact E2|]. rewrite Ha2. apply bool_decide_eq_true_2.
    unfold counter. rewrite Hframe, Hn1; [simpl; lia|].
    intros H. apply keyOfWindow_inj in H. lia.
Qed.

Lemma fixed_window_boundary_burst_witness :
  (exists r,
      (RateLimiter.isAllowed five_per_minute "k" 5 59999 fresh_world).1
        = Returned r /\ allowed r = true)
  /\ (exists r,
        (RateLimiter.isAllowed five_per_minute "k" 5 60000
           (RateLimiter.isAllowed five_per_minute "k" 5 59999 fresh_world).2).1
          = Returned r /\ allowed r = true).
Proof.
  apply (fixed_window_boundary_burst five_per_minute "k" 0 fresh_world).
  - reflexivity.
  - discriminate.
  - constructor.
  - reflexivity.
  - reflexivity.
Defined.



